(** * sanic/asgi.py: the ASGI adapter of Sanic, as a shallow embedding

    The module bridges the ASGI event protocol (a [scope], a [receive]
    and a [send] callable) to Sanic's request and response objects.
    The embedding follows the source class by class: [MockProtocol],
    [MockTransport], [Lifespan] and [ASGIApp].

    Coroutines become computations in a small monad [M] that threads the
    objects one connection mutates (the queue behind [receive], the lazily
    created protocol handle, the request), may raise a Python exception,
    may stay suspended for ever, and writes what it does to the outside
    (events sent, log records, listener calls) to a chronological trace. *)

From Stdlib Require Import Ascii String NArith ZArith Lia.
From Stdlib Require Import DecimalString DecimalN.
From stdpp Require Import base option list gmap strings.

Local Open Scope N_scope.

(** ** Text

    Python [bytes] are lists of 8-bit characters; Python [str] is a list of
    Unicode code points.  The two never compare equal in Python 3, which
    [pyval] and [py_eq] keep. *)

Definition bytes : Type := list ascii.
Definition str : Type := list N.

(** [B "..."] is the bytes literal [b"..."], [U "..."] the str literal
    ["..."] (ASCII text). *)
Definition B (s : string) : bytes := list_ascii_of_string s.
Definition U (s : string) : str := N_of_ascii <$> list_ascii_of_string s.

Inductive exn : Type :=
| KeyError (key : string)
| UnboundLocalError (name : string)
| AttributeError (attr : string)
| UnicodeEncodeError (codec : string) (code_point : N)
| InvalidUsage (msg : string)
| ServerError (msg : string)
| ListenerError (tag : string).

(** What awaiting a coroutine comes to: a value, an exception, or a
    suspension that nothing in the connection ever resumes. *)
Inductive outcome (A : Type) : Type :=
| Ok (a : A)
| Raise (e : exn)
| Blocked.
Arguments Ok {A} a.
Arguments Raise {A} e.
Arguments Blocked {A}.

Definition obind {A B : Type} (o : outcome A) (f : A -> outcome B) : outcome B :=
  match o with
  | Ok a => f a
  | Raise e => Raise e
  | Blocked => Blocked
  end.

(** [[f x for x in l]] where [f] may raise: the first exception ends the
    comprehension. *)
Fixpoint comprehension {A B : Type} (f : A -> outcome B) (l : list A) : outcome (list B) :=
  match l with
  | [] => Ok []
  | x :: l' =>
      obind (f x) (fun y => obind (comprehension f l') (fun ys => Ok (y :: ys)))
  end.

(** [bytes.decode("latin-1")]: byte [k] is code point [k]; never fails. *)
Definition decode_latin1 (bs : bytes) : str := N_of_ascii <$> bs.

(** [str.encode("latin-1")]: fails on the first code point above 255. *)
Definition encode_latin1_cp (c : N) : outcome ascii :=
  if c <? 256 then Ok (ascii_of_N c) else Raise (UnicodeEncodeError "latin-1" c).

Definition encode_latin1 (s : str) : outcome bytes := comprehension encode_latin1_cp s.

(** [str.encode("utf-8")], strict: surrogates (and values that are no code
    point) are refused. *)
Definition utf8_cp (c : N) : outcome bytes :=
  if c <? 0x80 then Ok [ascii_of_N c]
  else if c <? 0x800 then
    Ok [ascii_of_N (0xC0 + c / 64); ascii_of_N (0x80 + c mod 64)]
  else if c <? 0x10000 then
    if (0xD800 <=? c) && (c <=? 0xDFFF) then Raise (UnicodeEncodeError "utf-8" c)
    else Ok [ascii_of_N (0xE0 + c / 4096);
             ascii_of_N (0x80 + (c / 64) mod 64);
             ascii_of_N (0x80 + c mod 64)]
  else if c <? 0x110000 then
    Ok [ascii_of_N (0xF0 + c / 262144);
        ascii_of_N (0x80 + (c / 4096) mod 64);
        ascii_of_N (0x80 + (c / 64) mod 64);
        ascii_of_N (0x80 + c mod 64)]
  else Raise (UnicodeEncodeError "utf-8" c).

Definition encode_utf8 (s : str) : outcome bytes :=
  obind (comprehension utf8_cp s) (fun chunks => Ok (concat chunks)).

(** [urllib.parse.quote(string)] with its default [safe="/"]: the string is
    encoded as UTF-8; letters, digits and [_.-~/] stay, every other byte
    becomes [%XX] in upper-case hexadecimal. *)
Definition always_safe (c : N) : bool :=
  ((65 <=? c) && (c <=? 90)) || ((97 <=? c) && (c <=? 122)) ||
  ((48 <=? c) && (c <=? 57)) ||
  (c =? 95) || (c =? 46) || (c =? 45) || (c =? 126).

Definition quote_safe (c : N) : bool := always_safe c || (c =? 47).

Definition hex_digit (d : N) : N := if d <? 10 then 48 + d else 55 + d.

Definition quote_byte (a : ascii) : str :=
  let c := N_of_ascii a in
  if quote_safe c then [c] else [37; hex_digit (c / 16); hex_digit (c mod 16)].

Definition quote (s : str) : outcome str :=
  obind (encode_utf8 s) (fun bs => Ok (concat (quote_byte <$> bs))).

(** [str(n)] for a non-negative integer, as bytes after
    [.encode("latin-1")]: the decimal digits. *)
Definition str_of_nat (n : nat) : bytes :=
  list_ascii_of_string (NilEmpty.string_of_uint (N.to_uint (N.of_nat n))).


(** Values as far as [==] and [in] need them: a [str] never equals a
    [bytes], whatever the characters. *)
Inductive pyval : Type :=
| PyStr (s : str)
| PyBytes (bs : bytes).

Definition py_eq (x y : pyval) : bool :=
  match x, y with
  | PyStr s, PyStr t => bool_decide (s = t)
  | PyBytes s, PyBytes t => bool_decide (s = t)
  | _, _ => false
  end.

(** [x in (y1, y2, ...)] *)
Definition py_in (x : pyval) (ys : list pyval) : bool := existsb (py_eq x) ys.

(** ** multidict.CIMultiDict

    An ordered multi-map with [str] keys compared without regard to case.
    Keys keep their spelling; lookups compare the lower-cased forms.  On
    the Latin-1 range, which is all that decoded request headers hold,
    lower-casing is the table below; other code points are left alone. *)
Definition lower_cp (c : N) : N :=
  if (65 <=? c) && (c <=? 90) then c + 32
  else if (192 <=? c) && (c <=? 222) && negb (c =? 215) then c + 32
  else c.

Definition lower (s : str) : str := lower_cp <$> s.

Definition CIMultiDict : Type := list (str * str).

(** [d.get(key)]: the value of the first entry for [key], or [None]. *)
Fixpoint cimd_get (d : CIMultiDict) (key : str) : option str :=
  match d with
  | [] => None
  | (k, v) :: d' =>
      if bool_decide (lower k = lower key) then Some v else cimd_get d' key
  end.

(** [key in d] *)
Definition cimd_contains (d : CIMultiDict) (key : str) : bool :=
  existsb (fun kv => bool_decide (lower kv.1 = lower key)) d.

(** ** ASGI data

    A scope and a message are Python dicts with a fixed vocabulary of keys;
    a field is [None] when the key is absent, so that [d["k"]] (which
    raises [KeyError]) and [d.get("k", default)] can be told apart. *)

Record ASGIScope : Type := {
  sc_type : option str;
  sc_headers : option (list (bytes * bytes));
  sc_root_path : option str;
  sc_path : option str;
  sc_query_string : option bytes;
  sc_http_version : option str;
  sc_method : option str;
}.

Record ASGIMessage : Type := {
  m_type : option str;
  m_body : option bytes;
  m_more_body : option bool;
}.

(** [d[key]] *)
Definition getitem {A : Type} (key : string) (field : option A) : outcome A :=
  match field with
  | Some v => Ok v
  | None => Raise (KeyError key)
  end.

(** [d.get(key, dflt)] *)
Definition dict_get {A : Type} (field : option A) (dflt : A) : A := default dflt field.

(** The events the adapter passes to [send], one constructor per ["type"]. *)
Inductive event : Type :=
| LifespanStartupComplete
| LifespanShutdownComplete
| HttpResponseStart (status : Z) (headers : list (bytes * bytes))
| HttpResponseBody (body : bytes) (more_body : bool).

(** ** Sanic objects the adapter works on

    [Request], the response classes and the application live in other
    modules of Sanic; only what asgi.py reads and writes is kept. *)

(** [sanic.server.StreamBuffer]: the items [put] so far, oldest first
    ([None] is the end marker); the consumer is the handler task. *)
Definition StreamBuffer : Type := list (option bytes).

Record Request : Type := {
  r_url : bytes;
  r_headers : CIMultiDict;
  r_version : str;
  r_method : str;
  r_body : bytes;
  r_stream : option StreamBuffer;
}.

(** Modelled from the spec: [StreamingHTTPResponse.stream] is outside this
    module; it calls back into the protocol handle bound to the response to
    push chunks and to await writability. *)
Inductive protocol_call : Type :=
| PushData (data : bytes)
| Drain.

Record BaseHTTPResponse : Type := {
  resp_status : Z;
  resp_headers : CIMultiDict;
  resp_cookies : list (str * str);   (* cookie name, and the cookie rendered as text *)
}.

(** Whatever a handler may hand to the response callback. *)
Inductive response : Type :=
| HTTPResponse (base : BaseHTTPResponse) (body : bytes)
| StreamingHTTPResponse (base : BaseHTTPResponse) (stream : list protocol_call)
| NotAResponse (type_name : string).

(** A lifecycle listener: called with the application and its loop, it
    returns a plain value or an awaitable, or raises; an awaitable may
    raise when awaited. *)
Inductive listener_result : Type :=
| Returns
| ReturnsAwaitable (awaited : option exn)
| Raises (e : exn).

Record listener : Type := {
  l_name : string;
  l_result : listener_result;
}.

(** Modelled from the spec: the application object (sanic.app.Sanic) is
    outside this module.  Its [listeners] attribute is a
    [defaultdict(list)] from lifecycle names to callbacks in registration
    order; [handle_request] invokes the response callback exactly once with
    the handler's final object; [error_handler.response] builds the
    response for an exception. *)
Record Sanic : Type := {
  listeners : gmap string (list listener);
  is_request_stream : bool;
  error_handler_response : Request -> exn -> response;
  handle_request : Request -> response;
}.

(** [sanic_app.listeners[name]] *)
Definition listeners_for (app : Sanic) (name : string) : list listener :=
  default [] (listeners app !! name).

(** ** The connection and the monad of coroutines *)

(** A [MockProtocol] object: its two [asyncio.Event]s. *)
Record mock_protocol : Type := {
  _not_paused : bool;
  _complete : bool;
}.

(** What the adapter does that is visible from outside, in order. *)
Inductive action : Type :=
| ASend (ev : event)                          (* [self._send(data)] *)
| AWarn (listener_kind : string)              (* [warnings.warn] *)
| ALogError (url : bytes) (actual : string)   (* [logger.error] *)
| AAssignBody (body : bytes)                  (* [self.request.body = ...] *)
| ACall (name : string)                       (* a listener is called *)
| AAwait (name : string)                      (* its result is awaited *)
| AWebsocketAccept                            (* [ws.accept()] *)
| ACreateTask                                 (* [loop.create_task(self.stream_body())] *)
| AHandleRequest (request : Request) (with_callback : bool).

(** The objects of one connection that the coroutines mutate. *)
Record conn : Type := {
  inbound : list ASGIMessage;          (* what [receive()] has yet to deliver *)
  _protocol : option mock_protocol;     (* [MockTransport._protocol] *)
  _websocket_connection : bool;        (* [MockTransport._websocket_connection] is set *)
  request : option Request;            (* [ASGIApp.request], once assigned *)
}.

(** Assignments to one attribute. *)
Definition with_inbound (c : conn) (queue : list ASGIMessage) : conn :=
  {| inbound := queue; _protocol := _protocol c;
     _websocket_connection := _websocket_connection c; request := request c |}.

Definition with_protocol (c : conn) (p : option mock_protocol) : conn :=
  {| inbound := inbound c; _protocol := p;
     _websocket_connection := _websocket_connection c; request := request c |}.

Definition with_websocket_connection (c : conn) : conn :=
  {| inbound := inbound c; _protocol := _protocol c;
     _websocket_connection := true; request := request c |}.

Definition with_request (c : conn) (r : Request) : conn :=
  {| inbound := inbound c; _protocol := _protocol c;
     _websocket_connection := _websocket_connection c; request := Some r |}.

Definition with_body (r : Request) (body : bytes) : Request :=
  {| r_url := r_url r; r_headers := r_headers r; r_version := r_version r;
     r_method := r_method r; r_body := body; r_stream := r_stream r |}.

Definition with_stream (r : Request) (queue : StreamBuffer) : Request :=
  {| r_url := r_url r; r_headers := r_headers r; r_version := r_version r;
     r_method := r_method r; r_body := r_body r; r_stream := Some queue |}.

Definition M (A : Type) : Type := conn -> outcome A * conn * list action.

Definition ret {A : Type} (a : A) : M A := fun c => (Ok a, c, []).

Definition bind {A B : Type} (m : M A) (f : A -> M B) : M B :=
  fun c =>
    match m c with
    | (Ok a, c1, t1) => let '(r, c2, t2) := f a c1 in (r, c2, t1 ++ t2)
    | (Raise e, c1, t1) => (Raise e, c1, t1)
    | (Blocked, c1, t1) => (Blocked, c1, t1)
    end.

Declare Scope coro_scope.
Delimit Scope coro_scope with coro.
Notation "x <- m ;; k" := (bind m (fun x => k))
  (at level 100, m at next level, right associativity) : coro_scope.
Notation "m ;;; k" := (bind m (fun _ => k))
  (at level 100, right associativity) : coro_scope.
Local Open Scope coro_scope.

Definition raise {A : Type} (e : exn) : M A := fun c => (Raise e, c, []).
Definition lift {A : Type} (o : outcome A) : M A := fun c => (o, c, []).
Definition emit (a : action) : M unit := fun c => (Ok tt, c, [a]).
Definition get_conn : M conn := fun c => (Ok c, c, []).

(** [try: m except AttributeError: handler] *)
Definition try_except_AttributeError {A : Type} (m : M A) (handler : M A) : M A :=
  fun c =>
    match m c with
    | (Raise (AttributeError _), c1, t1) =>
        let '(r, c2, t2) := handler c1 in (r, c2, t1 ++ t2)
    | other => other
    end.

(** The events sent during a run. *)
Definition sent (t : list action) : list event :=
  omap (fun a => match a with ASend ev => Some ev | _ => None end) t.

(** ** MockTransport *)
Module MockTransport.

(** [send]: forwards to the server's [send]. *)
Definition send (data : event) : M unit := emit (ASend data).

(** [receive]: the next inbound message; suspended for ever when the
    server has none left. *)
Definition receive : M ASGIMessage :=
  fun c =>
    match inbound c with
    | [] => (Blocked, c, [])
    | message :: rest => (Ok message, with_inbound c rest, [])
    end.

(** [get_protocol]: created on first use, with [_not_paused] set and
    [_complete] clear. *)
Definition get_protocol : M mock_protocol :=
  fun c =>
    match _protocol c with
    | Some p => (Ok p, c, [])
    | None =>
        let p := {| _not_paused := true; _complete := false |} in
        (Ok p, with_protocol c (Some p), [])
    end.

Definition create_websocket_connection : M unit :=
  fun c => (Ok tt, with_websocket_connection c, []).

Definition get_websocket_connection : M unit :=
  fun c =>
    if _websocket_connection c then (Ok tt, c, [])
    else (Raise (InvalidUsage "Improper websocket connection."), c, []).

End MockTransport.

(** ** MockProtocol

    The handle is the one object stored in the transport, so its methods
    read and write [_protocol]. *)
Module MockProtocol.

Definition this : M mock_protocol :=
  fun c =>
    match _protocol c with
    | Some p => (Ok p, c, [])
    | None => (Raise (AttributeError "protocol"), c, [])
    end.

Definition update (f : mock_protocol -> mock_protocol) : M unit :=
  fun c => (Ok tt, with_protocol c (f <$> _protocol c), []).

Definition pause_writing : M unit :=
  update (fun p => {| _not_paused := false; _complete := _complete p |}).

Definition resume_writing : M unit :=
  update (fun p => {| _not_paused := true; _complete := _complete p |}).

Definition complete : M unit :=
  update (fun p => {| _not_paused := true; _complete := _complete p |}) ;;;
  MockTransport.send (HttpResponseBody (B "") false).

Definition is_complete : M bool :=
  p <- this ;; ret (_complete p).

Definition push_data (data : bytes) : M unit :=
  finished <- is_complete ;;
  if negb finished then MockTransport.send (HttpResponseBody data true)
  else ret tt.

(** [drain]: waits for [_not_paused]. *)
Definition drain : M unit :=
  p <- this ;;
  if _not_paused p then ret tt else lift Blocked.

End MockProtocol.

(** ** Lifespan *)
Module Lifespan.

(** [__init__]: warns about the two listener kinds that ASGI cannot run
    at their usual time. *)
Definition __init__ (sanic_app : Sanic) : M unit :=
  (if bool_decide (is_Some (listeners sanic_app !! "before_server_start"))
   then emit (AWarn "before_server_start") else ret tt) ;;;
  (if bool_decide (is_Some (listeners sanic_app !! "after_server_stop"))
   then emit (AWarn "after_server_stop") else ret tt).

(** One turn of the loops: [response = handler(app, loop)], then
    [await response] if it is awaitable. *)
Definition run_handler (handler : listener) : M unit :=
  emit (ACall (l_name handler)) ;;;
  match l_result handler with
  | Returns => ret tt
  | ReturnsAwaitable awaited =>
      emit (AAwait (l_name handler)) ;;;
      match awaited with
      | None => ret tt
      | Some e => raise e
      end
  | Raises e => raise e
  end.

Fixpoint run_handlers (handlers : list listener) : M unit :=
  match handlers with
  | [] => ret tt
  | handler :: rest => run_handler handler ;;; run_handlers rest
  end.

Definition pre_startup (sanic_app : Sanic) : M unit :=
  run_handlers (listeners_for sanic_app "before_server_start").

Definition startup (sanic_app : Sanic) : M unit :=
  run_handlers (listeners_for sanic_app "before_server_start") ;;;
  run_handlers (listeners_for sanic_app "after_server_start").

Definition shutdown (sanic_app : Sanic) : M unit :=
  run_handlers (listeners_for sanic_app "before_server_stop") ;;;
  run_handlers (listeners_for sanic_app "after_server_stop").

(** [__call__(scope, receive, send)]; [receive] and [send] are the
    callables the transport wraps. *)
Definition __call__ (sanic_app : Sanic) : M unit :=
  message <- MockTransport.receive ;;
  ty <- lift (getitem "type" (m_type message)) ;;
  (if bool_decide (ty = U "lifespan.startup") then
     startup sanic_app ;;;
     MockTransport.send LifespanStartupComplete
   else ret tt) ;;;
  message <- MockTransport.receive ;;
  ty <- lift (getitem "type" (m_type message)) ;;
  (if bool_decide (ty = U "lifespan.shutdown") then
     shutdown sanic_app ;;;
     MockTransport.send LifespanShutdownComplete
   else ret tt).

End Lifespan.

(** ** ASGIApp *)

Record ASGIApp : Type := {
  sanic_app : Sanic;
  do_stream : bool;
  ws : bool;          (* [self.ws] is a websocket connection, not [None] *)
}.

(** Reading a local variable that no branch assigned. *)
Definition local {A : Type} (name : string) (v : option A) : outcome A :=
  match v with
  | Some x => Ok x
  | None => Raise (UnboundLocalError name)
  end.

(** [self.request], and assignments to it and to its attributes. *)
Definition get_request : M Request :=
  fun c =>
    match request c with
    | Some r => (Ok r, c, [])
    | None => (Raise (AttributeError "request"), c, [])
    end.

Definition set_request (r : Request) : M unit :=
  fun c => (Ok tt, with_request c r, []).

(** The header list of the scope as the [CIMultiDict] of the request. *)
Definition decode_headers (raw : list (bytes * bytes)) : CIMultiDict :=
  (fun kv => (decode_latin1 kv.1, decode_latin1 kv.2)) <$> raw.

Definition create (app : Sanic) (scope : ASGIScope) : M ASGIApp :=
  let headers := decode_headers (dict_get (sc_headers scope) []) in
  let do_stream :=
    if bool_decide (cimd_get headers (U "expect") = Some (U "100-continue"))
    then true else false in
  Lifespan.__init__ app ;;;
  ty <- lift (getitem "type" (sc_type scope)) ;;
  if bool_decide (ty = U "lifespan") then
    Lifespan.__call__ app ;;;
    ret {| sanic_app := app; do_stream := do_stream; ws := false |}
  else
    path <- lift (getitem "path" (sc_path scope)) ;;
    quoted <- lift (quote path) ;;
    url_bytes <- lift (encode_latin1 (dict_get (sc_root_path scope) (U "") ++ quoted)) ;;
    query_string <- lift (getitem "query_string" (sc_query_string scope)) ;;
    let url_bytes := url_bytes ++ B "?" ++ query_string in
    branch <-
      (if bool_decide (ty = U "http") then
         version <- lift (getitem "http_version" (sc_http_version scope)) ;;
         method <- lift (getitem "method" (sc_method scope)) ;;
         ret (Some version, Some method, false)
       else if bool_decide (ty = U "websocket") then
         MockTransport.create_websocket_connection ;;;
         emit AWebsocketAccept ;;;
         ret (Some (U "1.1"), Some (U "GET"), true)
       else
         ret (None, None, false)) ;;
    let '(version, method, ws) := branch in
    version <- lift (local "version" version) ;;
    method <- lift (local "method" method) ;;
    set_request {| r_url := url_bytes; r_headers := headers;
                   r_version := version; r_method := method;
                   r_body := B ""; r_stream := None |} ;;;
    (if is_request_stream app then
       r <- get_request ;;
       set_request (with_stream r [])
     else ret tt) ;;;
    ret {| sanic_app := app; do_stream := do_stream; ws := ws |}.

(** [message = await self.transport.receive()] when the queue is known to
    be [message :: rest]: the queue becomes [rest]. *)
Definition set_inbound (rest : list ASGIMessage) : M unit :=
  fun c => (Ok tt, with_inbound c rest, []).

(** The [while more_body] loop of [read_body].  Every turn takes one
    message off the queue and nothing else touches the queue, so the loop
    is a recursion on it; on an exhausted queue [receive()] never
    resolves. *)
Fixpoint read_body_loop (queue : list ASGIMessage) (body : bytes) : M bytes :=
  match queue with
  | [] => lift Blocked
  | message :: rest =>
      set_inbound rest ;;;
      let body := body ++ dict_get (m_body message) (B "") in
      let more_body := dict_get (m_more_body message) false in
      if more_body then read_body_loop rest body else ret body
  end.

Definition read_body : M bytes :=
  c <- get_conn ;;
  read_body_loop (inbound c) (B "").




(** Attribute access on whatever the handler produced. *)
Definition response_base (r : response) (attr : string) : outcome BaseHTTPResponse :=
  match r with
  | HTTPResponse base _ => Ok base
  | StreamingHTTPResponse base _ => Ok base
  | NotAResponse _ => Raise (AttributeError attr)
  end.

Definition response_body (r : response) : outcome bytes :=
  match r with
  | HTTPResponse _ body => Ok body
  | _ => Raise (AttributeError "body")
  end.

Definition is_streaming (r : response) : bool :=
  match r with
  | StreamingHTTPResponse _ _ => true
  | _ => false
  end.

Definition type_name (r : response) : string :=
  match r with
  | HTTPResponse _ _ => "HTTPResponse"
  | StreamingHTTPResponse _ _ => "StreamingHTTPResponse"
  | NotAResponse name => name
  end.

(** [(str(name).encode("latin-1"), str(value).encode("latin-1"))] *)
Definition encode_header (nv : str * str) : outcome (bytes * bytes) :=
  obind (encode_latin1 nv.1) (fun name =>
  obind (encode_latin1 nv.2) (fun value => Ok (name, value))).

(** The test of the second comprehension: [name not in (b"Set-Cookie",)],
    with [name] a key of the multidict, a [str]. *)
Definition not_set_cookie (nv : str * str) : bool :=
  negb (py_in (PyStr nv.1) [PyBytes (B "Set-Cookie")]).

(** [(b"set-cookie", cookie.encode("utf-8"))] *)
Definition encode_cookie (nc : str * str) : outcome (bytes * bytes) :=
  obind (encode_utf8 nc.2) (fun cookie => Ok (B "set-cookie", cookie)).

(** [await response.stream()] *)
Definition run_protocol_call (op : protocol_call) : M unit :=
  match op with
  | PushData data => MockProtocol.push_data data
  | Drain => MockProtocol.drain
  end.

Fixpoint run_stream (ops : list protocol_call) : M unit :=
  match ops with
  | [] => ret tt
  | op :: rest => run_protocol_call op ;;; run_stream rest
  end.

Definition stream_callback (self : ASGIApp) (response : response) : M unit :=
  encoded <-
    try_except_AttributeError
      (base <- lift (response_base response "headers") ;;
       headers <- lift (comprehension encode_header (resp_headers base)) ;;
       ret (response, headers))
      (request <- get_request ;;
       emit (ALogError (r_url request) (type_name response)) ;;;
       let exception := ServerError "Invalid response type" in
       let response := error_handler_response (sanic_app self) request exception in
       base <- lift (response_base response "headers") ;;
       headers <- lift (comprehension encode_header
                          (List.filter not_set_cookie (resp_headers base))) ;;
       ret (response, headers)) ;;
  let '(response, headers) := encoded in
  base <- lift (response_base response "headers") ;;
  headers <-
    (if negb (cimd_contains (resp_headers base) (U "content-length"))
        && negb (is_streaming response)
     then
       body <- lift (response_body response) ;;
       ret (headers ++ [(B "content-length", str_of_nat (length body))])
     else ret headers) ;;
  headers <-
    (if bool_decide (resp_cookies base <> []) then
       cookies <- lift (comprehension encode_cookie (resp_cookies base)) ;;
       ret (headers ++ cookies)
     else ret headers) ;;
  MockTransport.send (HttpResponseStart (resp_status base) headers) ;;;
  match response with
  | StreamingHTTPResponse _ stream =>
      MockTransport.get_protocol ;;;
      run_stream stream ;;;
      MockProtocol.complete
  | _ =>
      body <- lift (response_body response) ;;
      MockTransport.send (HttpResponseBody body false)
  end.

(** [__call__]: ingest the body, then hand the request to the
    application, which passes its response to the callback. *)
Definition __call__ (self : ASGIApp) : M unit :=
  (if negb (do_stream self) then
     body <- read_body ;;
     r <- get_request ;;
     set_request (with_body r body) ;;;
     emit (AAssignBody body)
   else
     emit ACreateTask) ;;;
  request <- get_request ;;
  emit (AHandleRequest request (negb (ws self))) ;;;
  if ws self then ret tt
  else stream_callback self (handle_request (sanic_app self) request).

(** ** Vocabulary of the statements *)

Definition more_of (message : ASGIMessage) : bool := dict_get (m_more_body message) false.



Definition called (t : list action) : list string :=
  omap (fun a => match a with ACall name => Some name | _ => None end) t.

(** What the callback may write: events and log records. *)
Definition is_output (a : action) : Prop :=
  match a with
  | ASend _ | ALogError _ _ => True
  | _ => False
  end.

(** [writes P m]: every action of every run of [m] satisfies [P]. *)
Definition writes {A : Type} (P : action -> Prop) (m : M A) : Prop :=
  forall c, Forall P (m c).2.

(** What one listener contributes to the trace, and whether it fails. *)
Definition call_trace (handler : listener) : list action :=
  ACall (l_name handler) ::
  match l_result handler with
  | ReturnsAwaitable _ => [AAwait (l_name handler)]
  | _ => []
  end.

Definition failure (handler : listener) : option exn :=
  match l_result handler with
  | Returns => None
  | ReturnsAwaitable awaited => awaited
  | Raises e => Some e
  end.

(** An entry of the raw header list whose name is [expect] in any case. *)
Definition is_expect (kv : bytes * bytes) : bool :=
  bool_decide (lower (decode_latin1 kv.1) = U "expect").

(** The path of a scope as it enters the URL: quoted, then encoded. *)
Definition percent_encode (path : str) : outcome bytes :=
  obind (quote path) encode_latin1.

(** The warnings of [Lifespan.__init__]. *)
Definition init_warnings (app : Sanic) : list action :=
  (if bool_decide (is_Some (listeners app !! "before_server_start"))
   then [AWarn "before_server_start"] else []) ++
  (if bool_decide (is_Some (listeners app !! "after_server_stop"))
   then [AWarn "after_server_stop"] else []).

(** The value [create] computes for [do_stream] from the raw headers. *)
Definition expects_continue (scope : ASGIScope) : bool :=
  bool_decide
    (cimd_get (decode_headers (dict_get (sc_headers scope) [])) (U "expect")
     = Some (U "100-continue")).

(** [returns Q m]: whenever [m] returns, its value satisfies [Q]. *)
Definition returns {A : Type} (Q : A -> Prop) (m : M A) : Prop :=
  forall c a c' t, m c = (Ok a, c', t) -> Q a.

(** After the startup phase [Lifespan.__call__] sends nothing but the
    shutdown completion. *)
Definition not_startup_complete (a : action) : Prop :=
  a <> ASend LifespanStartupComplete.



(** ** Sample objects

    A small application, scopes, messages and responses on which the
    statements below are run. *)
Module Examples.

Definition listener_a : listener := {| l_name := "a"; l_result := Returns |}.
Definition listener_b : listener :=
  {| l_name := "b"; l_result := ReturnsAwaitable None |}.
Definition listener_c : listener := {| l_name := "c"; l_result := Returns |}.
Definition failing_a : listener :=
  {| l_name := "a"; l_result := Raises (ListenerError "boom") |}.

Definition ok_base : BaseHTTPResponse :=
  {| resp_status := 200%Z;
     resp_headers := [(U "Content-Type", U "text/plain")];
     resp_cookies := [(U "session", U "session=abc; Path=/")] |}.

(** The response of a custom error handler that sets a cookie. *)
Definition error_base : BaseHTTPResponse :=
  {| resp_status := 500%Z;
     resp_headers := [(U "Set-Cookie", U "session=abc"); (U "content-length", U "5")];
     resp_cookies := [] |}.

Definition app_with (before : list listener) : Sanic :=
  {| listeners :=
       {[ "before_server_start" := before; "after_server_start" := [listener_c] ]};
     is_request_stream := true;
     error_handler_response := fun _ _ => HTTPResponse error_base (B "Error");
     handle_request := fun r => HTTPResponse ok_base (r_body r) |}.

Definition app : Sanic := app_with [listener_a; listener_b].
Definition failing_app : Sanic := app_with [failing_a; listener_b].

Definition self : ASGIApp := {| sanic_app := app; do_stream := false; ws := false |}.

Definition request0 : Request :=
  {| r_url := B "/upload?"; r_headers := []; r_version := U "1.1";
     r_method := U "POST"; r_body := B ""; r_stream := Some [] |}.

Definition body_event (body : string) (more : bool) : ASGIMessage :=
  {| m_type := Some (U "http.request"); m_body := Some (B body);
     m_more_body := Some more |}.

(** An event that carries only its type. *)
Definition bare_event : ASGIMessage :=
  {| m_type := Some (U "http.request"); m_body := None; m_more_body := None |}.

Definition startup_event : ASGIMessage :=
  {| m_type := Some (U "lifespan.startup"); m_body := None; m_more_body := None |}.

Definition conn_with (queue : list ASGIMessage) (r : option Request) : conn :=
  {| inbound := queue; _protocol := None; _websocket_connection := false;
     request := r |}.

Definition http_scope : ASGIScope :=
  {| sc_type := Some (U "http");
     sc_headers := Some [(B "Host", B "example.org"); (B "Expect", B "100-continue")];
     sc_root_path := Some (U "/api");
     sc_path := Some (U "/a b/" ++ [233]);
     sc_query_string := Some (B "q=a b&x=%41");
     sc_http_version := Some (U "1.1");
     sc_method := Some (U "PUT") |}.

Definition unknown_scope : ASGIScope :=
  {| sc_type := Some (U "mqtt");
     sc_headers := None;
     sc_root_path := None;
     sc_path := Some (U "/");
     sc_query_string := Some (B "");
     sc_http_version := None;
     sc_method := None |}.

End Examples.

(** ** The rest of the module: further vocabulary

    The methods of the protocol handle as values, so that arbitrary
    sequences of calls can be run; predicates on runs and on event
    sequences; further sample objects. *)

(** One call of a method of [MockProtocol]: by the transport layer
    ([pause_writing], [resume_writing]) or by a response. *)
Inductive protocol_method : Type :=
| PauseWriting
| ResumeWriting
| Complete
| Push (data : bytes)
| AwaitDrain.

Definition call_method (m : protocol_method) : M unit :=
  match m with
  | PauseWriting => MockProtocol.pause_writing
  | ResumeWriting => MockProtocol.resume_writing
  | Complete => MockProtocol.complete
  | Push data => MockProtocol.push_data data
  | AwaitDrain => MockProtocol.drain
  end.

Fixpoint call_methods (ms : list protocol_method) : M unit :=
  match ms with
  | [] => ret tt
  | m :: rest => call_method m ;;; call_methods rest
  end.

(** The handle with its two events as given. *)
Definition handle (not_paused complete : bool) : option mock_protocol :=
  Some {| _not_paused := not_paused; _complete := complete |}.

(** The trace of a list of listeners that all return. *)
Definition calls (hs : list listener) : list action := concat (call_trace <$> hs).

(** A message with another ["type"]. *)
Definition with_type (m : ASGIMessage) (ty : option str) : ASGIMessage :=
  {| m_type := ty; m_body := m_body m; m_more_body := m_more_body m |}.

(** [preserves part m]: no run of [m] changes that part of the connection
    ([inbound], [request], ...). *)
Definition preserves {A X : Type} (part : conn -> X) (m : M A) : Prop :=
  forall c, part (m c).1.2 = part c.

(** Computations that only compute: they return or raise, and leave the
    connection and the trace alone. *)
Definition only_computes {A : Type} (m : M A) : Prop :=
  forall c, exists o, m c = (o, c, []).

(** Actions that send nothing. *)
Definition is_quiet (a : action) : Prop :=
  match a with
  | ASend _ => False
  | _ => True
  end.

(** Actions that send a body event with [more_body] set. *)
Definition is_chunk_action (a : action) : Prop :=
  match a with
  | ASend (HttpResponseBody _ true) => True
  | _ => False
  end.

Definition is_chunk_event (ev : event) : Prop :=
  match ev with
  | HttpResponseBody _ true => True
  | _ => False
  end.

(** The event sequences of one response: nothing, or one start event,
    then body events with [more_body] set, then at most one body event
    with [more_body] clear. *)
Definition response_events (evs : list event) : Prop :=
  evs = [] \/
  exists status headers chunks final,
    evs = HttpResponseStart status headers :: chunks ++ final /\
    Forall is_chunk_event chunks /\
    (final = [] \/ exists body, final = [HttpResponseBody body false]).

(** The bytes [quote] lets through or produces. *)
Definition is_quoted_byte (a : ascii) : Prop :=
  quote_safe (N_of_ascii a) = true \/ a = "%"%char.

Module Samples.

Definition ok_listener (name : string) : listener :=
  {| l_name := name; l_result := Returns |}.

(** An application with listeners of all four kinds and without
    [is_request_stream]. *)
Definition plain_app : Sanic :=
  {| listeners :=
       {[ "before_server_start" := [ok_listener "a"];
          "after_server_start" := [ok_listener "b"];
          "before_server_stop" := [ok_listener "c"];
          "after_server_stop" := [ok_listener "d"] ]};
     is_request_stream := false;
     error_handler_response := fun _ _ => NotAResponse "NoneType";
     handle_request := fun r => HTTPResponse Examples.ok_base (r_body r) |}.

(** The same, with a failing [before_server_stop] listener. *)
Definition failing_stop_app : Sanic :=
  {| listeners :=
       {[ "before_server_start" := [ok_listener "a"];
          "before_server_stop" :=
            [ok_listener "c";
             {| l_name := "x"; l_result := ReturnsAwaitable (Some (ListenerError "late")) |};
             ok_listener "never"] ]};
     is_request_stream := false;
     error_handler_response := fun _ _ => NotAResponse "NoneType";
     handle_request := fun r => HTTPResponse Examples.ok_base (r_body r) |}.

Definition event_of_type (ty : string) : ASGIMessage :=
  {| m_type := Some (U ty); m_body := None; m_more_body := None |}.

Definition websocket_scope : ASGIScope :=
  {| sc_type := Some (U "websocket");
     sc_headers := Some [(B "Upgrade", B "websocket")];
     sc_root_path := None;
     sc_path := Some (U "/feed");
     sc_query_string := Some (B "");
     sc_http_version := None;
     sc_method := None |}.

Definition lifespan_scope : ASGIScope :=
  {| sc_type := Some (U "lifespan");
     sc_headers := None; sc_root_path := None; sc_path := None;
     sc_query_string := None; sc_http_version := None; sc_method := None |}.

(** An [http] scope without [Expect]. *)
Definition get_scope : ASGIScope :=
  {| sc_type := Some (U "http");
     sc_headers := Some [(B "Host", B "example.org")];
     sc_root_path := None;
     sc_path := Some (U "/items");
     sc_query_string := Some (B "");
     sc_http_version := Some (U "1.1");
     sc_method := Some (U "GET") |}.


(** A response with a header value outside Latin-1. *)
Definition euro_base : BaseHTTPResponse :=
  {| resp_status := 200%Z;
     resp_headers := [(U "X-Price", U "10 " ++ [0x20AC])];
     resp_cookies := [] |}.

Definition plain_self : ASGIApp :=
  {| sanic_app := plain_app; do_stream := false; ws := false |}.


Definition websocket_self : ASGIApp :=
  {| sanic_app := Examples.app; do_stream := false; ws := true |}.

(** A request as [create] leaves it without [is_request_stream]. *)
Definition request_without_stream : Request :=
  {| r_url := B "/upload?"; r_headers := [(U "expect", U "100-continue")];
     r_version := U "1.1"; r_method := U "POST"; r_body := B ""; r_stream := None |}.

Definition conn_with_handle (p : option mock_protocol) : conn :=
  {| inbound := []; _protocol := p; _websocket_connection := false;
     request := Some Examples.request0 |}.

(** An [http] scope that holds nothing but its type. *)
Definition bare_http_scope : ASGIScope :=
  {| sc_type := Some (U "http");
     sc_headers := None; sc_root_path := None; sc_path := None;
     sc_query_string := None; sc_http_version := None; sc_method := None |}.

(** An [http] scope mounted under a root path outside Latin-1. *)
Definition euro_root_scope : ASGIScope :=
  {| sc_type := Some (U "http");
     sc_headers := None;
     sc_root_path := Some (U "/shop" ++ [0x20AC]);
     sc_path := Some (U "/");
     sc_query_string := Some (B "");
     sc_http_version := Some (U "1.1");
     sc_method := Some (U "GET") |}.

End Samples.

(** ** Monad laws used below *)

Section Monad.
Context {A B : Type}.

Lemma bind_Ok (m : M A) (f : A -> M B) c a c1 t1 :
  m c = (Ok a, c1, t1) ->
  bind m f c = ((f a c1).1.1, (f a c1).1.2, t1 ++ (f a c1).2).
Proof.
  intros H. unfold bind. rewrite H. by destruct (f a c1) as [[r c2] t2].
Qed.

Lemma bind_Raise (m : M A) (f : A -> M B) c e c1 t1 :
  m c = (Raise e, c1, t1) -> bind m f c = (Raise e, c1, t1).
Proof. intros H. unfold bind. by rewrite H. Qed.

Lemma bind_Blocked (m : M A) (f : A -> M B) c c1 t1 :
  m c = (Blocked, c1, t1) -> bind m f c = (Blocked, c1, t1).
Proof. intros H. unfold bind. by rewrite H. Qed.

Lemma writes_bind P (m : M A) (f : A -> M B) :
  writes P m -> (forall a, writes P (f a)) -> writes P (bind m f).
Proof.
  intros Hm Hf c. unfold bind. specialize (Hm c).
  destruct (m c) as [[[a | e |] c1] t1]; simpl in *; try done.
  specialize (Hf a c1). destruct (f a c1) as [[r c2] t2]; simpl in *.
  by apply Forall_app.
Qed.

Lemma writes_ret P (a : A) : writes P (ret a).
Proof. intros c. by constructor. Qed.

Lemma writes_lift P (o : outcome A) : writes P (lift o).
Proof. intros c. by constructor. Qed.

Lemma writes_try P (m handler : M A) :
  writes P m -> writes P handler -> writes P (try_except_AttributeError m handler).
Proof.
  intros Hm Hh c. unfold try_except_AttributeError. specialize (Hm c).
  destruct (m c) as [[[a | e |] c1] t1]; simpl in *; try done.
  destruct e; try done.
  specialize (Hh c1). destruct (handler c1) as [[r c2] t2]; simpl in *.
  by apply Forall_app.
Qed.
End Monad.

Lemma writes_emit (P : action -> Prop) a : P a -> writes P (emit a).
Proof. intros H c. simpl. by repeat constructor. Qed.

Lemma writes_silent {A : Type} (P : action -> Prop) (m : M A) :
  (forall c, (m c).2 = []) -> writes P m.
Proof. intros H c. rewrite H. constructor. Qed.

Create HintDb writes.
#[local] Hint Resolve writes_ret writes_lift writes_emit : writes.

(** ** What the response callback writes *)

Lemma writes_get_request P : writes P get_request.
Proof. apply writes_silent. intros c. unfold get_request. by destruct (request c). Qed.

Lemma writes_get_protocol P : writes P MockTransport.get_protocol.
Proof.
  apply writes_silent. intros c. unfold MockTransport.get_protocol.
  by destruct (_protocol c).
Qed.

Lemma writes_this P : writes P MockProtocol.this.
Proof. apply writes_silent. intros c. unfold MockProtocol.this. by destruct (_protocol c). Qed.

Lemma writes_update P f : writes P (MockProtocol.update f).
Proof. by apply writes_silent. Qed.

Lemma writes_send ev : writes is_output (MockTransport.send ev).
Proof. by apply writes_emit. Qed.

#[local] Hint Resolve writes_get_request writes_get_protocol writes_this
  writes_update writes_send : writes.

Ltac writes_step :=
  first
    [ apply writes_bind; [| intros ?]
    | apply writes_try
    | progress eauto with writes
    | match goal with
      | |- writes _ (if ?x then _ else _) => destruct x
      | |- writes _ (match ?x with _ => _ end) => destruct x
      end ].

Lemma writes_run_stream ops : writes is_output (run_stream ops).
Proof.
  induction ops as [| op ops IH]; simpl; [eauto with writes |].
  apply writes_bind; [| by intros].
  destruct op; simpl; unfold MockProtocol.push_data, MockProtocol.is_complete, MockProtocol.drain;
    repeat writes_step.
Qed.

Lemma writes_stream_callback self resp : writes is_output (stream_callback self resp).
Proof.
  unfold stream_callback, MockProtocol.complete.
  pose proof writes_run_stream.
  repeat writes_step; by apply writes_emit.
Qed.


(** ** Body ingestion *)




Lemma bind_step {A B : Type} (m : M A) (f : A -> M B) c a c1 t1 r c2 t2 t :
  m c = (Ok a, c1, t1) ->
  f a c1 = (r, c2, t2) ->
  t = t1 ++ t2 ->
  bind m f c = (r, c2, t).
Proof. intros Hm Hf ->. unfold bind. by rewrite Hm, Hf. Qed.

Lemma get_request_spec c r : request c = Some r -> get_request c = (Ok r, c, []).
Proof. intros H. unfold get_request. by rewrite H. Qed.









(** ** Lifespan *)

Lemma bind_assoc {A B C : Type} (m : M A) (f : A -> M B) (g : B -> M C) c :
  bind (bind m f) g c = bind m (fun a => bind (f a) g) c.
Proof.
  unfold bind. destruct (m c) as [[[a | e |] c1] t1]; try done.
  destruct (f a c1) as [[[x | e |] c2] t2]; try done.
  destruct (g x c2) as [[r c3] t3]. by rewrite app_assoc.
Qed.

Lemma bind_ext {A B : Type} (m : M A) (f g : A -> M B) c :
  (forall a c1, f a c1 = g a c1) -> bind m f c = bind m g c.
Proof.
  intros H. unfold bind. destruct (m c) as [[[a | e |] c1] t1]; try done.
  by rewrite H.
Qed.

Lemma bind_ret_l {A B : Type} (a : A) (f : A -> M B) c : bind (ret a) f c = f a c.
Proof. unfold bind, ret. by destruct (f a c) as [[r c2] t2]. Qed.

Lemma run_handler_ok h c :
  failure h = None -> Lifespan.run_handler h c = (Ok tt, c, call_trace h).
Proof.
  unfold failure, Lifespan.run_handler, call_trace, bind, emit.
  destruct (l_result h) as [| [e |] | e]; by intros.
Qed.

Lemma run_handler_fail h e c :
  failure h = Some e -> Lifespan.run_handler h c = (Raise e, c, call_trace h).
Proof.
  unfold failure, Lifespan.run_handler, call_trace, bind, emit.
  destruct (l_result h) as [| [e' |] | e']; intros [= <-] || intros [=]; done.
Qed.

Lemma run_handlers_app l1 l2 c :
  Lifespan.run_handlers (l1 ++ l2) c =
  bind (Lifespan.run_handlers l1) (fun _ => Lifespan.run_handlers l2) c.
Proof.
  revert c. induction l1 as [| h l1 IH]; intros c; simpl.
  - by rewrite bind_ret_l.
  - rewrite bind_assoc. apply bind_ext. intros _ c1. apply IH.
Qed.

Lemma run_handlers_ok hs c :
  Forall (fun h => failure h = None) hs ->
  Lifespan.run_handlers hs c = (Ok tt, c, concat (call_trace <$> hs)).
Proof.
  induction 1 as [| h hs Hh _ IH]; [done |]. simpl.
  eapply bind_step; [by apply run_handler_ok | apply IH | done].
Qed.

Lemma run_handlers_fail pre h post e c :
  Forall (fun h => failure h = None) pre ->
  failure h = Some e ->
  Lifespan.run_handlers (pre ++ h :: post) c =
    (Raise e, c, concat (call_trace <$> pre) ++ call_trace h).
Proof.
  intros Hpre Hh. rewrite run_handlers_app.
  eapply bind_step; [by apply run_handlers_ok | | done].
  simpl. by apply bind_Raise, run_handler_fail.
Qed.

Lemma startup_run_handlers app c :
  Lifespan.startup app c =
  Lifespan.run_handlers
    (listeners_for app "before_server_start" ++ listeners_for app "after_server_start") c.
Proof. unfold Lifespan.startup. by rewrite run_handlers_app. Qed.

Lemma sent_call_traces hs : sent (concat (call_trace <$> hs)) = [].
Proof.
  induction hs as [| h hs IH]; [done |].
  cbn [fmap list_fmap concat]. unfold sent in *. rewrite omap_app, IH.
  unfold call_trace. by destruct (l_result h).
Qed.

Lemma called_call_traces hs : called (concat (call_trace <$> hs)) = l_name <$> hs.
Proof.
  induction hs as [| h hs IH]; [done |].
  cbn [fmap list_fmap concat]. unfold called in *. rewrite omap_app, IH.
  unfold call_trace. by destruct (l_result h).
Qed.

Lemma writes_run_handlers hs : writes not_startup_complete (Lifespan.run_handlers hs).
Proof.
  induction hs as [| h hs IH]; simpl; [eauto with writes |].
  apply writes_bind; [| by intros].
  unfold Lifespan.run_handler.
  repeat first
    [ apply writes_bind; [| intros ?]
    | by apply writes_emit
    | by apply writes_ret
    | by apply writes_silent
    | match goal with |- writes _ (match ?x with _ => _ end) => destruct x end ].
Qed.

Lemma writes_receive P : writes P MockTransport.receive.
Proof.
  apply writes_silent. intros c. unfold MockTransport.receive. by destruct (inbound c).
Qed.

(** C7: on [lifespan.startup] the [before_server_start] listeners are
    called in registration order, then the [after_server_start] ones, each
    awaitable result awaited before the next call, and
    [lifespan.startup.complete] is sent after all of them and only once;
    when a listener fails, the error propagates, the listeners after it are
    not called and nothing is sent. *)
Theorem lifespan_startup_runs_listeners_in_order (app : Sanic) (c : conn)
    (m : ASGIMessage) (rest : list ASGIMessage) :
  inbound c = m :: rest ->
  m_type m = Some (U "lifespan.startup") ->
  let hs := listeners_for app "before_server_start" ++
            listeners_for app "after_server_start" in
  (Forall (fun h => failure h = None) hs ->
   exists r c' t,
     Lifespan.__call__ app c =
       (r, c', concat (call_trace <$> hs) ++ ASend LifespanStartupComplete :: t) /\
     called (concat (call_trace <$> hs)) = l_name <$> hs /\
     ~ In (ASend LifespanStartupComplete) t) /\
  (forall pre h post e,
     hs = pre ++ h :: post ->
     Forall (fun h => failure h = None) pre ->
     failure h = Some e ->
     let t := concat (call_trace <$> pre) ++ call_trace h in
     Lifespan.__call__ app c = (Raise e, with_inbound c rest, t) /\
     called t = l_name <$> (pre ++ [h]) /\
     sent t = []).
Proof.
  intros Hq Hty hs. split.
  - intros Hok. unfold Lifespan.__call__.
    erewrite bind_Ok by (unfold MockTransport.receive; by rewrite Hq).
    rewrite Hty. erewrite bind_Ok by reflexivity.
    rewrite bool_decide_eq_true_2 by done.
    erewrite (bind_Ok (_ ;;; _)); cycle 1.
    { eapply bind_step; [| reflexivity | reflexivity].
      rewrite startup_run_handlers. by apply run_handlers_ok. }
    cbn [fst snd]. do 3 eexists. split; [| split; [apply called_call_traces |]].
    + rewrite !app_nil_l, <- app_assoc. reflexivity.
    + match goal with |- ~ In _ (?m ?k).2 =>
        assert (Hw : writes not_startup_complete m); [| specialize (Hw k)] end.
      { repeat first
          [ apply writes_bind; [| intros ?]
          | apply writes_receive | apply writes_lift | apply writes_ret
          | apply writes_run_handlers | by apply writes_emit
          | match goal with |- writes _ (if ?x then _ else _) => destruct x end ]. }
      rewrite Forall_forall in Hw. intros Hin. apply list_elem_of_In in Hin.
      by apply Hw in Hin.
  - intros pre h post e Hhs Hpre Hh t. split; [| split].
    + unfold Lifespan.__call__.
      erewrite bind_Ok by (unfold MockTransport.receive; by rewrite Hq).
      rewrite Hty. erewrite bind_Ok by reflexivity.
      rewrite bool_decide_eq_true_2 by done.
      erewrite (bind_Raise (_ ;;; _)); [reflexivity |].
      apply bind_Raise. rewrite startup_run_handlers. fold hs. rewrite Hhs.
      by apply run_handlers_fail.
    + unfold t, called. rewrite omap_app. fold (called (concat (call_trace <$> pre))).
      rewrite called_call_traces, fmap_app. f_equal.
      unfold call_trace. by destruct (l_result h).
    + unfold t, sent. rewrite omap_app. fold (sent (concat (call_trace <$> pre))).
      rewrite sent_call_traces. unfold call_trace. by destruct (l_result h).
Qed.

(** ** Construction *)

Lemma if_same_bool (x : bool) : (if x then true else false) = x.
Proof. by destruct x. Qed.

Lemma returns_bind {A B : Type} (Q : B -> Prop) (m : M A) (f : A -> M B) :
  (forall a, returns Q (f a)) -> returns Q (bind m f).
Proof.
  intros Hf c x c' t. unfold bind.
  destruct (m c) as [[[a | e |] c1] t1]; try done.
  destruct (f a c1) as [[r c2] t2] eqn:E. intros [= -> -> <-]. by eapply Hf.
Qed.

Lemma returns_ret {A : Type} (Q : A -> Prop) (a : A) : Q a -> returns Q (ret a).
Proof. by intros H c x c' t [= <- _ _]. Qed.

Lemma Lifespan_init_spec app c : Lifespan.__init__ app c = (Ok tt, c, init_warnings app).
Proof.
  unfold Lifespan.__init__, init_warnings, bind.
  by do 2 case_bool_decide.
Qed.

Lemma comprehension_app {A B : Type} (f : A -> outcome B) l1 l2 r1 r2 :
  comprehension f l1 = Ok r1 ->
  comprehension f l2 = Ok r2 ->
  comprehension f (l1 ++ l2) = Ok (r1 ++ r2).
Proof.
  revert r1. induction l1 as [| x l1 IH]; simpl; intros r1 H1 H2.
  - by injection H1 as <-.
  - destruct (f x) as [y | |]; simpl in *; try done.
    destruct (comprehension f l1) as [ys | |]; simpl in *; try done.
    injection H1 as <-. by rewrite (IH ys eq_refl H2).
Qed.

Lemma url_bytes_spec root path root_bytes path_bytes :
  encode_latin1 root = Ok root_bytes ->
  percent_encode path = Ok path_bytes ->
  exists quoted,
    quote path = Ok quoted /\
    encode_latin1 (root ++ quoted) = Ok (root_bytes ++ path_bytes).
Proof.
  unfold percent_encode. intros Hroot Hpath.
  destruct (quote path) as [quoted | |]; simpl in Hpath; try done.
  exists quoted. split; [done |]. by apply comprehension_app.
Qed.

Lemma encode_latin1_small s :
  Forall (fun c => c < 256) s -> encode_latin1 s = Ok (ascii_of_N <$> s).
Proof.
  induction 1 as [| c s Hc _ IH]; [done |].
  unfold encode_latin1 in *. simpl. unfold encode_latin1_cp at 1.
  apply N.ltb_lt in Hc. rewrite Hc. simpl. by rewrite IH.
Qed.

Lemma hex_digit_small d : d < 16 -> hex_digit d < 256.
Proof. intros Hd. unfold hex_digit. destruct (d <? 10); lia. Qed.

Lemma quote_byte_small a : Forall (fun c => c < 256) (quote_byte a).
Proof.
  pose proof (N_ascii_bounded a) as Ha. unfold quote_byte.
  destruct (quote_safe (N_of_ascii a)).
  - by constructor.
  - constructor; [lia |]. constructor; [| constructor; [| constructor]].
    + apply hex_digit_small, N.Div0.div_lt_upper_bound. lia.
    + by apply hex_digit_small, N.mod_lt.
Qed.

(** Quoting never leaves the Latin-1 range: a path enters the URL as
    soon as it can be encoded as UTF-8. *)
Lemma percent_encode_of_utf8 path bs :
  encode_utf8 path = Ok bs ->
  percent_encode path = Ok (ascii_of_N <$> concat (quote_byte <$> bs)).
Proof.
  intros Hutf. unfold percent_encode, quote. rewrite Hutf. simpl.
  apply encode_latin1_small, Forall_concat, Forall_fmap, Forall_forall.
  intros a _. apply quote_byte_small.
Qed.

(** Letters, digits and [_.-~/] go through unchanged. *)
Lemma percent_encode_safe path :
  Forall (fun c => quote_safe c = true) path ->
  percent_encode path = Ok (ascii_of_N <$> path).
Proof.
  intros Hsafe.
  assert (Hutf : encode_utf8 path = Ok (ascii_of_N <$> path) /\
                 concat (quote_byte <$> (ascii_of_N <$> path)) = path).
  { unfold encode_utf8. induction Hsafe as [| c path Hc _ [IH1 IH2]]; [done |].
    assert (Hlt : c < 128).
    { unfold quote_safe, always_safe in Hc.
      repeat (apply orb_true_iff in Hc as [Hc | Hc]);
        repeat (apply andb_true_iff in Hc as [? Hc]);
        repeat match goal with
               | H : (_ <=? _) = true |- _ => apply N.leb_le in H
               | H : (_ =? _) = true |- _ => apply N.eqb_eq in H
               end; lia. }
    split.
    - simpl. unfold utf8_cp at 1. apply N.ltb_lt in Hlt. rewrite Hlt. simpl.
      destruct (comprehension utf8_cp path) as [chunks | |]; simpl in *; try done.
      by injection IH1 as ->.
    - rewrite !fmap_cons. cbn [concat]. rewrite IH2. unfold quote_byte.
      rewrite N_ascii_embedding by lia. by rewrite Hc. }
  destruct Hutf as [Hutf Hq]. rewrite (percent_encode_of_utf8 _ _ Hutf).
  by rewrite Hq.
Qed.

(** What [create] does on an [http] scope that has its keys. *)
Lemma create_http_spec app scope c root_bytes path path_bytes query_string version method :
  sc_type scope = Some (U "http") ->
  encode_latin1 (dict_get (sc_root_path scope) (U "")) = Ok root_bytes ->
  sc_path scope = Some path ->
  percent_encode path = Ok path_bytes ->
  sc_query_string scope = Some query_string ->
  sc_http_version scope = Some version ->
  sc_method scope = Some method ->
  let r := {| r_url := root_bytes ++ path_bytes ++ B "?" ++ query_string;
              r_headers := decode_headers (dict_get (sc_headers scope) []);
              r_version := version; r_method := method;
              r_body := B ""; r_stream := None |} in
  create app scope c =
    (Ok {| sanic_app := app; do_stream := expects_continue scope; ws := false |},
     with_request c (if is_request_stream app then with_stream r [] else r),
     init_warnings app).
Proof.
  intros Hty Hroot Hpath Henc Hqs Hver Hmeth r.
  destruct (url_bytes_spec _ _ _ _ Hroot Henc) as (quoted & Hquote & Hurl).
  unfold create.
  eapply bind_step; [apply Lifespan_init_spec | | by rewrite app_nil_r].
  rewrite Hty. eapply bind_step; [reflexivity | | reflexivity].
  rewrite bool_decide_eq_false_2 by done.
  rewrite Hpath. eapply bind_step; [reflexivity | | reflexivity].
  rewrite Hquote. eapply bind_step; [reflexivity | | reflexivity].
  rewrite Hurl. eapply bind_step; [reflexivity | | reflexivity].
  rewrite Hqs. eapply bind_step; [reflexivity | | reflexivity].
  rewrite bool_decide_eq_true_2 by done.
  rewrite Hver, Hmeth.
  eapply bind_step; [reflexivity | | reflexivity].
  cbv beta iota zeta.
  do 3 (eapply bind_step; [reflexivity | | reflexivity]).
  unfold expects_continue. rewrite <- app_assoc, if_same_bool.
  destruct (is_request_stream app); [| done].
  eapply bind_step; [by eapply bind_step | reflexivity | reflexivity].
Qed.

Lemma comprehension_app_inv {A B : Type} (f : A -> outcome B) l1 l2 r :
  comprehension f (l1 ++ l2) = Ok r ->
  exists r1 r2,
    comprehension f l1 = Ok r1 /\ comprehension f l2 = Ok r2 /\ r = r1 ++ r2.
Proof.
  revert r. induction l1 as [| x l1 IH]; simpl; intros r Hr.
  - by exists [], r.
  - destruct (f x) as [y | |]; simpl in Hr; try done.
    destruct (comprehension f (l1 ++ l2)) as [ys | |] eqn:Hys; simpl in Hr; try done.
    destruct (IH ys eq_refl) as (r1 & r2 & H1 & H2 & Heq).
    injection Hr as <-. exists (y :: r1), r2. rewrite H1, Heq. by simpl.
Qed.

(** Conversely, [create] returns on an [http] scope only if the scope has
    its keys and its text can be encoded. *)
Lemma create_http_returns_only_if app scope c inst c' t :
  sc_type scope = Some (U "http") ->
  create app scope c = (Ok inst, c', t) ->
  exists root_bytes path path_bytes query_string version method,
    encode_latin1 (dict_get (sc_root_path scope) (U "")) = Ok root_bytes /\
    sc_path scope = Some path /\
    percent_encode path = Ok path_bytes /\
    sc_query_string scope = Some query_string /\
    sc_http_version scope = Some version /\
    sc_method scope = Some method.
Proof.
  intros Hty. unfold create.
  erewrite bind_Ok by apply Lifespan_init_spec.
  rewrite Hty. erewrite bind_Ok by reflexivity.
  rewrite bool_decide_eq_false_2 by done.
  destruct (sc_path scope) as [path |]; [| done].
  erewrite bind_Ok by reflexivity.
  unfold percent_encode.
  destruct (quote path) as [quoted | |] eqn:Hquote; [| done | done].
  erewrite bind_Ok by reflexivity.
  destruct (encode_latin1 (dict_get (sc_root_path scope) (U "") ++ quoted))
    as [url | |] eqn:Hurl; [| done | done].
  apply comprehension_app_inv in Hurl as (root_bytes & path_bytes & Hroot & Hq & ->).
  erewrite bind_Ok by reflexivity.
  destruct (sc_query_string scope) as [query_string |]; [| done].
  erewrite bind_Ok by reflexivity.
  rewrite bool_decide_eq_true_2 by done.
  destruct (sc_http_version scope) as [version |]; [| done].
  destruct (sc_method scope) as [method |]; [| done].
  intros _. exists root_bytes, path, path_bytes, query_string, version, method.
  repeat split; try done. by rewrite Hquote.
Qed.


(** Whatever else the scope holds, [create] does not return on a scope of
    unknown type, and it leaves the connection as it found it. *)
Lemma create_unknown_type_never_returns app scope c ty :
  sc_type scope = Some ty ->
  ty <> U "lifespan" -> ty <> U "http" -> ty <> U "websocket" ->
  (forall inst, (create app scope c).1.1 <> Ok inst) /\
  (create app scope c).1.2 = c.
Proof.
  intros Hty Hl Hh Hw. unfold create.
  erewrite bind_Ok by apply Lifespan_init_spec.
  rewrite Hty. erewrite bind_Ok by reflexivity.
  rewrite bool_decide_eq_false_2 by done.
  destruct (sc_path scope) as [path |]; [| done].
  erewrite bind_Ok by reflexivity.
  destruct (quote path) as [quoted | |]; [| done | done].
  erewrite bind_Ok by reflexivity.
  destruct (encode_latin1 (dict_get (sc_root_path scope) (U "") ++ quoted))
    as [url | |]; [| done | done].
  erewrite bind_Ok by reflexivity.
  destruct (sc_query_string scope) as [query_string |]; [| done].
  erewrite bind_Ok by reflexivity.
  rewrite !bool_decide_eq_false_2 by done.
  erewrite bind_Ok by reflexivity. done.
Qed.

Lemma create_unknown_type_unbound_local app scope c ty
    root_bytes path path_bytes query_string :
  sc_type scope = Some ty ->
  ty <> U "lifespan" -> ty <> U "http" -> ty <> U "websocket" ->
  encode_latin1 (dict_get (sc_root_path scope) (U "")) = Ok root_bytes ->
  sc_path scope = Some path ->
  percent_encode path = Ok path_bytes ->
  sc_query_string scope = Some query_string ->
  create app scope c = (Raise (UnboundLocalError "version"), c, init_warnings app).
Proof.
  intros Hty Hl Hh Hw Hroot Hpath Henc Hqs.
  destruct (url_bytes_spec _ _ _ _ Hroot Henc) as (quoted & Hquote & Hurl).
  unfold create.
  eapply bind_step; [apply Lifespan_init_spec | | by rewrite app_nil_r].
  rewrite Hty. eapply bind_step; [reflexivity | | reflexivity].
  rewrite bool_decide_eq_false_2 by done.
  rewrite Hpath. eapply bind_step; [reflexivity | | reflexivity].
  rewrite Hquote. eapply bind_step; [reflexivity | | reflexivity].
  rewrite Hurl. eapply bind_step; [reflexivity | | reflexivity].
  rewrite Hqs. eapply bind_step; [reflexivity | | reflexivity].
  rewrite !bool_decide_eq_false_2 by done.
  by eapply bind_step.
Qed.

(** C3, what the code does: for a scope whose type is none of [http],
    [websocket], [lifespan], [create] never returns and assigns no request;
    when the scope has its [path] and [query_string], the last branch
    leaves [version] and [method] unassigned and the construction of the
    request that follows the branches raises [UnboundLocalError]. *)
Theorem create_unknown_type_raises (app : Sanic) (scope : ASGIScope) (c : conn)
    (ty : str) :
  sc_type scope = Some ty ->
  ty <> U "lifespan" -> ty <> U "http" -> ty <> U "websocket" ->
  (forall inst, (create app scope c).1.1 <> Ok inst) /\
  (create app scope c).1.2 = c /\
  forall root_bytes path path_bytes query_string,
    encode_latin1 (dict_get (sc_root_path scope) (U "")) = Ok root_bytes ->
    sc_path scope = Some path ->
    percent_encode path = Ok path_bytes ->
    sc_query_string scope = Some query_string ->
    create app scope c = (Raise (UnboundLocalError "version"), c, init_warnings app).
Proof.
  intros Hty Hl Hh Hw.
  destruct (create_unknown_type_never_returns app scope c ty Hty Hl Hh Hw) as [Hno Hconn].
  do 2 (split; [done |]). intros root_bytes path path_bytes query_string.
  by apply (create_unknown_type_unbound_local app scope c ty).
Qed.

(** ** Choice of the ingestion path *)

Lemma create_do_stream app scope :
  returns (fun inst => do_stream inst = expects_continue scope) (create app scope).
Proof.
  unfold create, expects_continue.
  repeat first
    [ apply returns_bind; intros ?
    | apply returns_ret; simpl; apply if_same_bool
    | match goal with
      | |- returns _ (match ?x with _ => _ end) => destruct x
      end ].
Qed.

Lemma decode_latin1_inj x y : decode_latin1 x = decode_latin1 y -> x = y.
Proof.
  revert y. induction x as [| a x IH]; intros [| a' y]; simpl; try done.
  intros [= Ha Hxy]. f_equal; [| by apply IH].
  by rewrite <- (ascii_N_embedding a), Ha, ascii_N_embedding.
Qed.

Lemma cimd_get_expect raw v :
  cimd_get (decode_headers raw) (U "expect") = Some (decode_latin1 v) <->
  exists pre k post,
    raw = pre ++ (k, v) :: post /\
    Forall (fun kv => is_expect kv = false) pre /\
    is_expect (k, v) = true.
Proof.
  induction raw as [| [k0 v0] raw IH].
  - split; [done |]. intros (pre & k & post & Heq & _). by destruct pre.
  - change (decode_headers ((k0, v0) :: raw))
      with ((decode_latin1 k0, decode_latin1 v0) :: decode_headers raw).
    cbn [cimd_get]. change (lower (U "expect")) with (U "expect").
    assert (Hexp0 : is_expect (k0, v0) = bool_decide (lower (decode_latin1 k0) = U "expect"))
      by done.
    case_bool_decide as Hk.
    + split.
      * intros [= Hv]. apply decode_latin1_inj in Hv as ->.
        by exists [], k0, raw.
      * intros ([| kv pre] & k & post & Heq & Hpre & Hexp); simplify_eq/=; [done |].
        inversion_clear Hpre as [| ? ? Hkv _]. congruence.
    + rewrite IH. split.
      * intros (pre & k & post & -> & Hpre & Hexp).
        exists ((k0, v0) :: pre), k, post. repeat split; [| done].
        by constructor.
      * intros ([| kv pre] & k & post & Heq & Hpre & Hexp); simplify_eq/=.
        -- congruence.
        -- inversion_clear Hpre. by exists pre, k, post.
Qed.

Lemma read_body_loop_frame q acc c :
  exists o q', read_body_loop q acc c = (o, with_inbound c q', []).
Proof.
  revert acc c. induction q as [| m q IH]; intros acc c; simpl.
  - exists Blocked, (inbound c). by destruct c.
  - destruct (dict_get (m_more_body m) false).
    + destruct (IH (acc ++ dict_get (m_body m) (B "")) (with_inbound c q))
        as (o & q' & Hrec).
      exists o, q'. by eapply bind_step.
    + eexists _, q. by eapply bind_step.
Qed.

Lemma read_body_frame c : exists o q', read_body c = (o, with_inbound c q', []).
Proof.
  unfold read_body, bind, get_conn.
  destruct (read_body_loop_frame (inbound c) (B "") c) as (o & q' & ->).
  exists o, q'. by destruct o.
Qed.

Lemma writes_weaken {A : Type} (P Q : action -> Prop) (m : M A) :
  (forall a, P a -> Q a) -> writes P m -> writes Q m.
Proof. intros HPQ Hm c. eapply Forall_impl; [apply Hm | done]. Qed.

Lemma writes_read_body P : writes P read_body.
Proof.
  apply writes_silent. intros c. by destruct (read_body_frame c) as (o & q' & ->).
Qed.

Lemma buffered_call_creates_no_task self :
  do_stream self = false -> writes (fun a => a <> ACreateTask) (__call__ self).
Proof.
  intros Hds. unfold __call__. rewrite Hds. simpl negb. cbv iota.
  repeat first
    [ apply writes_read_body | apply writes_get_request
    | by apply writes_silent | by apply writes_emit | by apply writes_ret
    | eapply writes_weaken; [| apply writes_stream_callback]; by intros []
    | apply writes_bind; [| intros ?]
    | match goal with |- writes _ (if ?x then _ else _) => destruct x end ].
Qed.

(** C9: [create] sets [do_stream] exactly when the first header of the
    scope whose name is [expect] (in any case) has the value
    [100-continue]; [__call__] then launches the streaming task exactly
    when [do_stream] is set, and otherwise reads the body into the
    request. *)
Theorem do_stream_iff_expect_continue (app : Sanic) (scope : ASGIScope)
    (c : conn) (inst : ASGIApp) (c' : conn) (t : list action) :
  create app scope c = (Ok inst, c', t) ->
  (do_stream inst = true <->
   exists pre k post,
     dict_get (sc_headers scope) [] = pre ++ (k, B "100-continue") :: post /\
     Forall (fun kv => is_expect kv = false) pre /\
     is_expect (k, B "100-continue") = true) /\
  (forall c1, In ACreateTask (__call__ inst c1).2 <-> do_stream inst = true) /\
  (do_stream inst = false ->
   forall c1 r body c2 t0,
     request c1 = Some r ->
     read_body c1 = (Ok body, c2, t0) ->
     exists t', (__call__ inst c1).2 = AAssignBody body :: t').
Proof.
  intros Hcreate. apply create_do_stream in Hcreate. split; [| split].
  - rewrite Hcreate. unfold expects_continue. rewrite bool_decide_eq_true.
    change (U "100-continue") with (decode_latin1 (B "100-continue")).
    apply cimd_get_expect.
  - intros c1. split.
    + intros Hin. destruct (do_stream inst) eqn:Hds; [done |].
      pose proof (buffered_call_creates_no_task inst Hds c1) as Hw.
      rewrite Forall_forall in Hw. apply list_elem_of_In in Hin. by apply Hw in Hin.
    + intros Hds. unfold __call__. rewrite Hds. simpl negb. cbv iota.
      erewrite bind_Ok by reflexivity. by left.
  - intros Hds c1 r body c2 t0 Hreq Hread.
    destruct (read_body_frame c1) as (o & q' & Hframe).
    rewrite Hframe in Hread. injection Hread as -> <- <-.
    unfold __call__. rewrite Hds. simpl negb. cbv iota.
    erewrite bind_Ok; cycle 1.
    { eapply bind_step; [exact Hframe | | reflexivity].
      eapply bind_step; [by apply get_request_spec | | reflexivity].
      by eapply bind_step. }
    by eexists.
Qed.

(** ** Response serialization *)


Lemma try_except_caught {A : Type} (m handler : M A) c attr c1 t1 r c2 t2 t :
  m c = (Raise (AttributeError attr), c1, t1) ->
  handler c1 = (r, c2, t2) ->
  t = t1 ++ t2 ->
  try_except_AttributeError m handler c = (r, c2, t).
Proof. intros Hm Hh ->. unfold try_except_AttributeError. by rewrite Hm, Hh. Qed.

(** The test [name not in (b"Set-Cookie",)] holds of every header: the
    name is a [str], the tuple holds [bytes]. *)
Lemma not_set_cookie_always nv : not_set_cookie nv = true.
Proof. done. Qed.









(** ** Streaming responses *)

Lemma this_spec c p : _protocol c = Some p -> MockProtocol.this c = (Ok p, c, []).
Proof. intros Hp. unfold MockProtocol.this. by rewrite Hp. Qed.

Lemma push_data_spec data c p :
  _protocol c = Some p ->
  _complete p = false ->
  MockProtocol.push_data data c = (Ok tt, c, [ASend (HttpResponseBody data true)]).
Proof.
  intros Hp Hc. unfold MockProtocol.push_data, MockProtocol.is_complete.
  eapply bind_step;
    [eapply bind_step; [by apply this_spec | reflexivity | reflexivity] | | reflexivity].
  by rewrite Hc.
Qed.

Lemma drain_spec c p :
  _protocol c = Some p ->
  _not_paused p = true ->
  MockProtocol.drain c = (Ok tt, c, []).
Proof.
  intros Hp Hnp. unfold MockProtocol.drain.
  eapply bind_step; [by apply this_spec | | reflexivity]. by rewrite Hnp.
Qed.




(** ** The statements on the sample objects *)



Lemma create_unknown_type_raises_witness :
  create Examples.app Examples.unknown_scope (Examples.conn_with [] None) =
    (Raise (UnboundLocalError "version"), Examples.conn_with [] None,
     [AWarn "before_server_start"]).
Proof.
  apply (proj2 (proj2 (create_unknown_type_raises Examples.app Examples.unknown_scope
                         (Examples.conn_with [] None) (U "mqtt")
                         eq_refl
                         ltac:(discriminate) ltac:(discriminate) ltac:(discriminate)))
           (B "") (U "/") (B "/") (B ""));
    reflexivity.
Defined.





Lemma lifespan_startup_runs_listeners_in_order_witness :
  let c := Examples.conn_with [Examples.startup_event] None in
  let calls := [ACall "a"; ACall "b"; AAwait "b"; ACall "c"] in
  (exists r c' t,
     Lifespan.__call__ Examples.app c =
       (r, c', calls ++ ASend LifespanStartupComplete :: t) /\
     called calls = ["a"; "b"; "c"]%string /\
     ~ In (ASend LifespanStartupComplete) t) /\
  (Lifespan.__call__ Examples.failing_app c =
     (Raise (ListenerError "boom"), with_inbound c [], [ACall "a"]) /\
   called [ACall "a"] = ["a"]%string /\
   sent [ACall "a"] = []).
Proof.
  split.
  - apply (proj1 (lifespan_startup_runs_listeners_in_order Examples.app
                    (Examples.conn_with [Examples.startup_event] None)
                    Examples.startup_event [] eq_refl eq_refl)).
    repeat constructor.
  - apply (proj2 (lifespan_startup_runs_listeners_in_order Examples.failing_app
                    (Examples.conn_with [Examples.startup_event] None)
                    Examples.startup_event [] eq_refl eq_refl)
             [] Examples.failing_a [Examples.listener_b; Examples.listener_c]
             (ListenerError "boom")).
    + reflexivity.
    + constructor.
    + reflexivity.
Defined.


Lemma do_stream_iff_expect_continue_witness :
  let inst := {| sanic_app := Examples.app; do_stream := true; ws := false |} in
  (do_stream inst = true <->
   exists pre k post,
     dict_get (sc_headers Examples.http_scope) [] = pre ++ (k, B "100-continue") :: post /\
     Forall (fun kv => is_expect kv = false) pre /\
     is_expect (k, B "100-continue") = true) /\
  (forall c1, In ACreateTask (__call__ inst c1).2 <-> do_stream inst = true) /\
  (do_stream inst = false ->
   forall c1 r body c2 t0,
     request c1 = Some r ->
     read_body c1 = (Ok body, c2, t0) ->
     exists t', (__call__ inst c1).2 = AAssignBody body :: t').
Proof.
  eapply (do_stream_iff_expect_continue Examples.app Examples.http_scope
            (Examples.conn_with [] None)).
  vm_compute. reflexivity.
Defined.

(** ** The protocol handle under arbitrary calls *)

Lemma bind_unfold {A B : Type} (m : M A) (f : A -> M B) c :
  bind m f c =
  match (m c).1.1 with
  | Ok a =>
      ((f a (m c).1.2).1.1, (f a (m c).1.2).1.2, (m c).2 ++ (f a (m c).1.2).2)
  | Raise e => (Raise e, (m c).1.2, (m c).2)
  | Blocked => (Blocked, (m c).1.2, (m c).2)
  end.
Proof.
  unfold bind. destruct (m c) as [[[a | e |] c1] t1]; simpl; try done.
  by destruct (f a c1) as [[r c2] t2].
Qed.

Lemma update_spec f c p :
  _protocol c = Some p ->
  MockProtocol.update f c = (Ok tt, with_protocol c (Some (f p)), []).
Proof. intros Hp. unfold MockProtocol.update. by rewrite Hp. Qed.

Lemma complete_spec c p :
  _protocol c = Some p ->
  MockProtocol.complete c =
    (Ok tt, with_protocol c (handle true (_complete p)),
     [ASend (HttpResponseBody (B "") false)]).
Proof.
  intros Hp. unfold MockProtocol.complete.
  eapply bind_step; [by apply update_spec | reflexivity | reflexivity].
Qed.

Lemma push_data_complete_spec data c p :
  _protocol c = Some p ->
  _complete p = true ->
  MockProtocol.push_data data c = (Ok tt, c, []).
Proof.
  intros Hp Hc. unfold MockProtocol.push_data, MockProtocol.is_complete.
  eapply bind_step;
    [eapply bind_step; [by apply this_spec | reflexivity | reflexivity] | | reflexivity].
  by rewrite Hc.
Qed.

Lemma drain_paused_spec c p :
  _protocol c = Some p ->
  _not_paused p = false ->
  MockProtocol.drain c = (Blocked, c, []).
Proof.
  intros Hp Hnp. unfold MockProtocol.drain.
  eapply bind_step; [by apply this_spec | | reflexivity]. by rewrite Hnp.
Qed.

Lemma call_method_keeps_incomplete m c p :
  _protocol c = Some p ->
  _complete p = false ->
  exists p', _protocol (call_method m c).1.2 = Some p' /\ _complete p' = false.
Proof.
  intros Hp Hc. destruct m as [| | | data |]; cbn [call_method].
  - unfold MockProtocol.pause_writing. rewrite (update_spec _ c p Hp). by eexists.
  - unfold MockProtocol.resume_writing. rewrite (update_spec _ c p Hp). by eexists.
  - rewrite (complete_spec c p Hp). by eexists.
  - rewrite (push_data_spec data c p Hp Hc). by exists p.
  - destruct (_not_paused p) eqn:Hnp.
    + rewrite (drain_spec c p Hp Hnp). by exists p.
    + rewrite (drain_paused_spec c p Hp Hnp). by exists p.
Qed.

Lemma call_methods_keep_incomplete ms c p :
  _protocol c = Some p ->
  _complete p = false ->
  exists p', _protocol (call_methods ms c).1.2 = Some p' /\ _complete p' = false.
Proof.
  revert c p. induction ms as [| m ms IH]; intros c p Hp Hc; [by exists p |].
  simpl. rewrite bind_unfold.
  destruct (call_method_keeps_incomplete m c p Hp Hc) as (p1 & Hp1 & Hc1).
  destruct (call_method m c) as [[[[] | e |] c1] t1]; simpl in *; [| by eauto..].
  destruct (IH c1 p1 Hp1 Hc1) as (p2 & Hp2 & Hc2). by exists p2.
Qed.

(** X1: whatever methods are called on a protocol handle, and in whatever
    order, [_complete] is never set: [is_complete] answers [False] after
    every run, also after [complete()]. *)
Theorem is_complete_is_never_set (ms : list protocol_method) (c : conn)
    (p : mock_protocol) :
  _protocol c = Some p ->
  _complete p = false ->
  let c' := (call_methods ms c).1.2 in
  MockProtocol.is_complete c' = (Ok false, c', []).
Proof.
  intros Hp Hc c'.
  destruct (call_methods_keep_incomplete ms c p Hp Hc) as (p' & Hp' & Hc').
  unfold MockProtocol.is_complete.
  eapply bind_step; [by apply (this_spec c' p') | | reflexivity].
  by rewrite Hc'.
Qed.

(** X2: [push_data] does not wait for the writer to be resumed: on a
    paused handle it sends its chunk at once; only [drain] waits, and it
    returns once [resume_writing] was called. *)
Theorem push_data_does_not_wait (c : conn) (p : mock_protocol) (data : bytes) :
  _protocol c = Some p ->
  _complete p = false ->
  (MockProtocol.pause_writing ;;; MockProtocol.push_data data) c =
    (Ok tt, with_protocol c (handle false false), [ASend (HttpResponseBody data true)]) /\
  (MockProtocol.pause_writing ;;; MockProtocol.drain) c =
    (Blocked, with_protocol c (handle false false), []) /\
  (MockProtocol.pause_writing ;;; MockProtocol.resume_writing ;;; MockProtocol.drain) c =
    (Ok tt, with_protocol c (handle true false), []).
Proof.
  intros Hp Hc.
  assert (Hpause : MockProtocol.pause_writing c =
                   (Ok tt, with_protocol c (handle false false), [])).
  { unfold MockProtocol.pause_writing. rewrite (update_spec _ c p Hp).
    unfold handle. by rewrite Hc. }
  split; [| split].
  - eapply bind_step; [exact Hpause | | reflexivity].
    by eapply push_data_spec.
  - eapply bind_step; [exact Hpause | | reflexivity].
    by eapply drain_paused_spec.
  - eapply bind_step; [exact Hpause | | reflexivity].
    eapply bind_step; [by eapply update_spec | | reflexivity].
    by eapply drain_spec.
Qed.

(** X3: [complete()] on a paused handle sends the final event without
    waiting and leaves the handle writable, so that a [drain] after it
    returns. *)
Theorem complete_resumes_writing (c : conn) (p : mock_protocol) :
  _protocol c = Some p ->
  _not_paused p = false ->
  MockProtocol.drain c = (Blocked, c, []) /\
  (MockProtocol.complete ;;; MockProtocol.drain) c =
    (Ok tt, with_protocol c (handle true (_complete p)),
     [ASend (HttpResponseBody (B "") false)]).
Proof.
  intros Hp Hnp. split; [by eapply drain_paused_spec |].
  eapply bind_step; [by apply complete_spec | | reflexivity].
  by eapply drain_spec.
Qed.

(** X4: [get_protocol] creates the handle once: a later call returns the
    handle as the calls in between left it (here: paused), not a fresh
    one. *)
Theorem get_protocol_keeps_the_handle (c : conn) :
  _protocol c = None ->
  (MockTransport.get_protocol ;;; MockProtocol.pause_writing ;;;
   MockTransport.get_protocol) c =
    (Ok {| _not_paused := false; _complete := false |},
     with_protocol c (handle false false), []) /\
  forall c1 p1,
    MockTransport.get_protocol c = (Ok p1, c1, []) ->
    MockTransport.get_protocol c1 = (Ok p1, c1, []).
Proof.
  intros Hp. split.
  - eapply bind_step;
      [unfold MockTransport.get_protocol; by rewrite Hp | | reflexivity].
    eapply bind_step; [by eapply update_spec | | reflexivity].
    reflexivity.
  - intros c1 p1. unfold MockTransport.get_protocol at 1. rewrite Hp.
    by intros [= <- <-].
Qed.

(** ** The whole lifespan protocol *)

Lemma receive_spec c m rest :
  inbound c = m :: rest ->
  MockTransport.receive c = (Ok m, with_inbound c rest, []).
Proof. intros Hq. unfold MockTransport.receive. by rewrite Hq. Qed.

Lemma shutdown_run_handlers app c :
  Lifespan.shutdown app c =
  Lifespan.run_handlers
    (listeners_for app "before_server_stop" ++ listeners_for app "after_server_stop") c.
Proof. unfold Lifespan.shutdown. by rewrite run_handlers_app. Qed.

Lemma startup_phase_spec app c :
  Forall (fun h => failure h = None)
    (listeners_for app "before_server_start" ++ listeners_for app "after_server_start") ->
  (Lifespan.startup app ;;; MockTransport.send LifespanStartupComplete) c =
    (Ok tt, c,
     calls (listeners_for app "before_server_start" ++
            listeners_for app "after_server_start") ++
     [ASend LifespanStartupComplete]).
Proof.
  intros Hok. eapply bind_step; [| reflexivity | reflexivity].
  rewrite startup_run_handlers. by apply run_handlers_ok.
Qed.

Lemma shutdown_phase_spec app c :
  Forall (fun h => failure h = None)
    (listeners_for app "before_server_stop" ++ listeners_for app "after_server_stop") ->
  (Lifespan.shutdown app ;;; MockTransport.send LifespanShutdownComplete) c =
    (Ok tt, c,
     calls (listeners_for app "before_server_stop" ++
            listeners_for app "after_server_stop") ++
     [ASend LifespanShutdownComplete]).
Proof.
  intros Hok. eapply bind_step; [| reflexivity | reflexivity].
  rewrite shutdown_run_handlers. by apply run_handlers_ok.
Qed.

(** X6: a startup message followed by a shutdown message runs the whole
    cycle: the start listeners, [lifespan.startup.complete], the
    [before_server_stop] listeners and then the [after_server_stop] ones in
    registration order, [lifespan.shutdown.complete]; the call returns and
    leaves later messages in the queue. *)
Theorem lifespan_full_cycle (app : Sanic) (c : conn) (m1 m2 : ASGIMessage)
    (rest : list ASGIMessage) :
  inbound c = m1 :: m2 :: rest ->
  m_type m1 = Some (U "lifespan.startup") ->
  m_type m2 = Some (U "lifespan.shutdown") ->
  let starting := listeners_for app "before_server_start" ++
                  listeners_for app "after_server_start" in
  let stopping := listeners_for app "before_server_stop" ++
                  listeners_for app "after_server_stop" in
  Forall (fun h => failure h = None) starting ->
  Forall (fun h => failure h = None) stopping ->
  Lifespan.__call__ app c =
    (Ok tt, with_inbound c rest,
     (calls starting ++ [ASend LifespanStartupComplete]) ++
     (calls stopping ++ [ASend LifespanShutdownComplete])).
Proof.
  intros Hq Hty1 Hty2 starting stopping Hstart Hstop. unfold Lifespan.__call__.
  eapply bind_step; [by apply receive_spec | | reflexivity].
  rewrite Hty1. eapply bind_step; [reflexivity | | reflexivity].
  rewrite bool_decide_eq_true_2 by done.
  eapply bind_step; [by apply startup_phase_spec | | reflexivity].
  eapply bind_step; [by apply receive_spec | | reflexivity].
  rewrite Hty2. eapply bind_step; [reflexivity | | reflexivity].
  rewrite bool_decide_eq_true_2 by done.
  by apply shutdown_phase_spec.
Qed.

(** X7: [__call__] takes two messages and looks at each once.  A first
    message that is not [lifespan.startup] and a second that is not
    [lifespan.shutdown] are consumed without any listener being called or
    anything being sent, also when the first is a [lifespan.shutdown] or
    the second a [lifespan.startup]; a message without ["type"] raises
    [KeyError]. *)
Theorem lifespan_skips_unexpected_messages (app : Sanic) (c : conn)
    (m1 m2 : ASGIMessage) (rest : list ASGIMessage) (ty1 : str) :
  inbound c = m1 :: m2 :: rest ->
  m_type m1 = Some ty1 ->
  ty1 <> U "lifespan.startup" ->
  (forall ty2,
     m_type m2 = Some ty2 ->
     ty2 <> U "lifespan.shutdown" ->
     Lifespan.__call__ app c = (Ok tt, with_inbound c rest, [])) /\
  (m_type m2 = None ->
   Lifespan.__call__ app c = (Raise (KeyError "type"), with_inbound c rest, [])).
Proof.
  intros Hq Hty1 Hne1.
  assert (Hfirst : forall r c' t,
    (message <- MockTransport.receive ;;
     ty <- lift (getitem "type" (m_type message)) ;;
     (if bool_decide (ty = U "lifespan.shutdown") then
        Lifespan.shutdown app ;;; MockTransport.send LifespanShutdownComplete
      else ret tt)) (with_inbound c (m2 :: rest)) = (r, c', t) ->
    Lifespan.__call__ app c = (r, c', t)).
  { intros r c' t Hsecond. unfold Lifespan.__call__.
    eapply bind_step; [by apply receive_spec | | reflexivity].
    rewrite Hty1. eapply bind_step; [reflexivity | | reflexivity].
    rewrite bool_decide_eq_false_2 by done.
    eapply bind_step; [reflexivity | exact Hsecond | reflexivity]. }
  split.
  - intros ty2 Hty2 Hne2. apply Hfirst.
    eapply bind_step; [by apply receive_spec | | reflexivity].
    rewrite Hty2. eapply bind_step; [reflexivity | | reflexivity].
    by rewrite bool_decide_eq_false_2.
  - intros Hty2. apply Hfirst.
    eapply bind_step; [by apply receive_spec | | reflexivity].
    rewrite Hty2. by apply bind_Raise.
Qed.

(** X8: when a stop listener fails, in the call or in the await of its
    result, the error leaves [__call__] after [lifespan.startup.complete]
    was sent: the stop listeners behind it are not called and
    [lifespan.shutdown.complete] is not sent. *)
Theorem lifespan_shutdown_failure (app : Sanic) (c : conn) (m1 m2 : ASGIMessage)
    (rest : list ASGIMessage) (pre : list listener) (h : listener)
    (post : list listener) (e : exn) :
  inbound c = m1 :: m2 :: rest ->
  m_type m1 = Some (U "lifespan.startup") ->
  m_type m2 = Some (U "lifespan.shutdown") ->
  let starting := listeners_for app "before_server_start" ++
                  listeners_for app "after_server_start" in
  Forall (fun h => failure h = None) starting ->
  listeners_for app "before_server_stop" ++ listeners_for app "after_server_stop"
    = pre ++ h :: post ->
  Forall (fun h => failure h = None) pre ->
  failure h = Some e ->
  let t := (calls starting ++ [ASend LifespanStartupComplete]) ++
           (calls pre ++ call_trace h) in
  Lifespan.__call__ app c = (Raise e, with_inbound c rest, t) /\
  sent t = [LifespanStartupComplete] /\
  called t = l_name <$> (starting ++ pre ++ [h]).
Proof.
  intros Hq Hty1 Hty2 starting Hstart Hstop Hpre Hh t. split; [| split].
  - unfold Lifespan.__call__.
    eapply bind_step; [by apply receive_spec | | reflexivity].
    rewrite Hty1. eapply bind_step; [reflexivity | | reflexivity].
    rewrite bool_decide_eq_true_2 by done.
    eapply bind_step; [by apply startup_phase_spec | | reflexivity].
    eapply bind_step; [by apply receive_spec | | reflexivity].
    rewrite Hty2. eapply bind_step; [reflexivity | | reflexivity].
    rewrite bool_decide_eq_true_2 by done.
    apply bind_Raise. rewrite shutdown_run_handlers, Hstop.
    by apply run_handlers_fail.
  - unfold t, sent, calls. rewrite !omap_app.
    fold (sent (concat (call_trace <$> starting))).
    fold (sent (concat (call_trace <$> pre))).
    rewrite !sent_call_traces. unfold call_trace. by destruct (l_result h).
  - unfold t, called, calls. rewrite !omap_app.
    fold (called (concat (call_trace <$> starting))).
    fold (called (concat (call_trace <$> pre))).
    rewrite !called_call_traces, !fmap_app. simpl. rewrite app_nil_r.
    do 2 f_equal. unfold call_trace. by destruct (l_result h).
Qed.

(** X9: [pre_startup] runs the [before_server_start] listeners only, and
    [startup] runs them again: a caller of both has every
    [before_server_start] listener called twice, before the first
    [after_server_start] listener. *)
Theorem pre_startup_then_startup_repeats (app : Sanic) (c : conn) :
  let before := listeners_for app "before_server_start" in
  let after := listeners_for app "after_server_start" in
  Forall (fun h => failure h = None) (before ++ after) ->
  Lifespan.pre_startup app c = (Ok tt, c, calls before) /\
  (Lifespan.pre_startup app ;;; Lifespan.startup app) c =
    (Ok tt, c, calls before ++ calls (before ++ after)).
Proof.
  intros before after Hok.
  assert (Hbefore : Forall (fun h => failure h = None) before)
    by (by apply Forall_app in Hok as [? _]).
  assert (Hpre : Lifespan.pre_startup app c = (Ok tt, c, calls before))
    by (by apply run_handlers_ok).
  split; [done |].
  eapply bind_step; [exact Hpre | | reflexivity].
  rewrite startup_run_handlers. by apply run_handlers_ok.
Qed.

(** ** Construction: the other scopes, and what goes wrong *)

Lemma preserves_bind {A B X : Type} (part : conn -> X) (m : M A) (f : A -> M B) :
  preserves part m -> (forall a, preserves part (f a)) -> preserves part (bind m f).
Proof.
  intros Hm Hf c. rewrite bind_unfold. specialize (Hm c).
  destruct (m c) as [[[a | e |] c1] t1]; simpl in *; try done.
  by rewrite Hf.
Qed.

Lemma preserves_pure {A X : Type} (part : conn -> X) (m : M A) :
  (forall c, (m c).1.2 = c) -> preserves part m.
Proof. intros H c. by rewrite H. Qed.


Lemma preserves_run_handlers {X : Type} (part : conn -> X) hs :
  preserves part (Lifespan.run_handlers hs).
Proof.
  induction hs as [| h hs IH]; simpl; [by apply preserves_pure |].
  apply preserves_bind; [| by intros].
  unfold Lifespan.run_handler.
  repeat first
    [ by apply preserves_pure
    | apply preserves_bind; [| intros ?]
    | match goal with |- preserves _ (match ?x with _ => _ end) => destruct x end ].
Qed.

Lemma preserves_request_receive : preserves request MockTransport.receive.
Proof. intros c. unfold MockTransport.receive. by destruct (inbound c). Qed.

Lemma preserves_request_lifespan app : preserves request (Lifespan.__call__ app).
Proof.
  unfold Lifespan.__call__, Lifespan.startup, Lifespan.shutdown.
  repeat first
    [ apply preserves_request_receive
    | apply preserves_run_handlers
    | by apply preserves_pure
    | apply preserves_bind; [| intros ?]
    | match goal with |- preserves _ (if ?x then _ else _) => destruct x end ].
Qed.


(** X10: every call of [create] builds a [Lifespan] first, whatever the
    scope: an application with a [before_server_start] or
    [after_server_stop] entry in its listeners, even an empty one, has the
    warning issued on every connection, also on one that [create] then
    rejects. *)
Theorem create_always_warns_first (app : Sanic) (scope : ASGIScope) (c : conn) :
  (exists t, (create app scope c).2 = init_warnings app ++ t) /\
  (is_Some (listeners app !! "before_server_start") ->
   In (AWarn "before_server_start") (create app scope c).2) /\
  (is_Some (listeners app !! "after_server_stop") ->
   In (AWarn "after_server_stop") (create app scope c).2).
Proof.
  assert (Hpre : exists t, (create app scope c).2 = init_warnings app ++ t).
  { unfold create. rewrite bind_unfold, Lifespan_init_spec. simpl. by eexists. }
  split; [done |]. destruct Hpre as (t & ->). unfold init_warnings.
  split; intros Hkey; apply in_or_app; left; apply in_or_app.
  - left. rewrite bool_decide_eq_true_2 by done. by left.
  - right. rewrite bool_decide_eq_true_2 by done. by left.
Qed.


(** X5: after [create], [get_websocket_connection] returns on a
    [websocket] scope; on an [http] scope, where none was created, it
    raises [InvalidUsage]. *)
Theorem websocket_connection_only_for_websocket (app : Sanic) (scope : ASGIScope)
    (c : conn) (inst : ASGIApp) (c' : conn) (t : list action) :
  _websocket_connection c = false ->
  create app scope c = (Ok inst, c', t) ->
  (sc_type scope = Some (U "websocket") ->
   MockTransport.get_websocket_connection c' = (Ok tt, c', [])) /\
  (sc_type scope = Some (U "http") ->
   MockTransport.get_websocket_connection c' =
     (Raise (InvalidUsage "Improper websocket connection."), c', [])).
Proof.
  intros Hws Hcreate. split; intros Hty.
  - assert (Hset : _websocket_connection c' = true).
    { revert Hcreate. unfold create.
      rewrite bind_unfold, Lifespan_init_spec. cbn [fst snd].
      rewrite Hty. rewrite bind_unfold. cbn [lift getitem fst snd].
      rewrite bool_decide_eq_false_2 by done.
      destruct (sc_path scope) as [path |]; [| done].
      rewrite bind_unfold. cbn [lift getitem fst snd].
      destruct (quote path) as [quoted | |]; [| done | done].
      rewrite bind_unfold. cbn [lift fst snd].
      destruct (encode_latin1 (dict_get (sc_root_path scope) (U "") ++ quoted))
        as [url | |]; [| done | done].
      rewrite bind_unfold. cbn [lift fst snd].
      destruct (sc_query_string scope) as [query_string |]; [| done].
      rewrite bind_unfold. cbn [lift getitem fst snd].
      rewrite bool_decide_eq_false_2 by done.
      rewrite bool_decide_eq_true_2 by done.
      destruct (is_request_stream app); by intros [= <- <- <-]. }
    unfold MockTransport.get_websocket_connection. by rewrite Hset.
  - destruct (create_http_returns_only_if app scope c inst c' t Hty Hcreate)
      as (root_bytes & path & path_bytes & query_string & version & method
          & Hroot & Hpath & Henc & Hqs & Hver & Hmeth).
    rewrite (create_http_spec app scope c _ _ _ _ _ _ Hty Hroot Hpath Henc Hqs Hver Hmeth)
      in Hcreate.
    injection Hcreate as <- <- <-.
    unfold MockTransport.get_websocket_connection. simpl. by rewrite Hws.
Qed.

(** X12: for a [lifespan] scope [create] is the lifespan protocol: it
    needs none of the other keys of the scope, returns when
    [Lifespan.__call__] returns, fails when it fails, and assigns no
    request. *)
Theorem create_lifespan_delegates (app : Sanic) (scope : ASGIScope) (c : conn) :
  sc_type scope = Some (U "lifespan") ->
  let run := Lifespan.__call__ app c in
  create app scope c =
    (match run.1.1 with
     | Ok _ => Ok {| sanic_app := app; do_stream := expects_continue scope; ws := false |}
     | Raise e => Raise e
     | Blocked => Blocked
     end,
     run.1.2, init_warnings app ++ run.2) /\
  request (create app scope c).1.2 = request c.
Proof.
  intros Hty run.
  assert (Hcreate : create app scope c =
    (match run.1.1 with
     | Ok _ => Ok {| sanic_app := app; do_stream := expects_continue scope; ws := false |}
     | Raise e => Raise e
     | Blocked => Blocked
     end,
     run.1.2, init_warnings app ++ run.2)).
  { unfold create. rewrite bind_unfold, Lifespan_init_spec. cbn [fst snd].
    rewrite Hty. rewrite bind_unfold. cbn [lift getitem fst snd].
    rewrite bool_decide_eq_true_2 by done.
    rewrite bind_unfold. fold run. unfold expects_continue.
    rewrite if_same_bool.
    destruct run as [[[[] | e |] c1] t1]; simpl; by rewrite ?app_nil_r. }
  split; [done |]. rewrite Hcreate. simpl. apply preserves_request_lifespan.
Qed.

Lemma create_steps_to_url app scope c ty path root_bytes path_bytes r c' t :
  sc_type scope = Some ty ->
  ty <> U "lifespan" ->
  sc_path scope = Some path ->
  encode_latin1 (dict_get (sc_root_path scope) (U "")) = Ok root_bytes ->
  percent_encode path = Ok path_bytes ->
  (query_string <- lift (getitem "query_string" (sc_query_string scope)) ;;
   let url_bytes := (root_bytes ++ path_bytes) ++ B "?" ++ query_string in
   branch <-
     (if bool_decide (ty = U "http") then
        version <- lift (getitem "http_version" (sc_http_version scope)) ;;
        method <- lift (getitem "method" (sc_method scope)) ;;
        ret (Some version, Some method, false)
      else if bool_decide (ty = U "websocket") then
        MockTransport.create_websocket_connection ;;;
        emit AWebsocketAccept ;;;
        ret (Some (U "1.1"), Some (U "GET"), true)
      else
        ret (None, None, false)) ;;
   let '(version, method, ws) := branch in
   version <- lift (local "version" version) ;;
   method <- lift (local "method" method) ;;
   set_request {| r_url := url_bytes;
                  r_headers := decode_headers (dict_get (sc_headers scope) []);
                  r_version := version; r_method := method;
                  r_body := B ""; r_stream := None |} ;;;
   (if is_request_stream app then
      r <- get_request ;;
      set_request (with_stream r [])
    else ret tt) ;;;
   ret {| sanic_app := app;
          do_stream :=
            if bool_decide
                 (cimd_get (decode_headers (dict_get (sc_headers scope) []))
                    (U "expect") = Some (U "100-continue"))
            then true else false;
          ws := ws |}) c = (r, c', t) ->
  create app scope c = (r, c', init_warnings app ++ t).
Proof.
  intros Hty Hl Hpath Hroot Henc Hrest.
  destruct (url_bytes_spec _ _ _ _ Hroot Henc) as (quoted & Hquote & Hurl).
  unfold create.
  eapply bind_step; [apply Lifespan_init_spec | | reflexivity].
  rewrite Hty. eapply bind_step; [reflexivity | | reflexivity].
  rewrite bool_decide_eq_false_2 by done.
  rewrite Hpath. eapply bind_step; [reflexivity | | reflexivity].
  rewrite Hquote. eapply bind_step; [reflexivity | | reflexivity].
  rewrite Hurl. eapply bind_step; [reflexivity | exact Hrest | reflexivity].
Qed.

(** X13: the keys [create] needs, in the order in which it reads them:
    ["type"], then for every scope but [lifespan] ["path"] and
    ["query_string"], then for [http] ["http_version"] and ["method"].
    A missing one raises [KeyError] with its name and no request is
    assigned; [root_path] and [headers] may be missing. *)
Theorem create_missing_keys (app : Sanic) (scope : ASGIScope) (c : conn) :
  (sc_type scope = None ->
   create app scope c = (Raise (KeyError "type"), c, init_warnings app)) /\
  (forall ty,
     sc_type scope = Some ty -> ty <> U "lifespan" ->
     (sc_path scope = None ->
      create app scope c = (Raise (KeyError "path"), c, init_warnings app)) /\
     (forall path root_bytes path_bytes,
        sc_path scope = Some path ->
        encode_latin1 (dict_get (sc_root_path scope) (U "")) = Ok root_bytes ->
        percent_encode path = Ok path_bytes ->
        (sc_query_string scope = None ->
         create app scope c = (Raise (KeyError "query_string"), c, init_warnings app)) /\
        (forall query_string,
           sc_query_string scope = Some query_string ->
           ty = U "http" ->
           (sc_http_version scope = None ->
            create app scope c =
              (Raise (KeyError "http_version"), c, init_warnings app)) /\
           (forall version,
              sc_http_version scope = Some version ->
              sc_method scope = None ->
              create app scope c = (Raise (KeyError "method"), c, init_warnings app))))).
Proof.
  split.
  - intros Hty. unfold create.
    eapply bind_step; [apply Lifespan_init_spec | | by rewrite app_nil_r].
    rewrite Hty. by apply bind_Raise.
  - intros ty Hty Hl. split.
    + intros Hpath. unfold create.
      eapply bind_step; [apply Lifespan_init_spec | | by rewrite app_nil_r].
      rewrite Hty. eapply bind_step; [reflexivity | | reflexivity].
      rewrite bool_decide_eq_false_2 by done.
      rewrite Hpath. by apply bind_Raise.
    + intros path root_bytes path_bytes Hpath Hroot Henc.
      pose proof (create_steps_to_url app scope c ty path root_bytes path_bytes)
        as Hsteps.
      split.
      * intros Hqs. rewrite <- (app_nil_r (init_warnings app)).
        apply Hsteps; try done. rewrite Hqs. by apply bind_Raise.
      * intros query_string Hqs ->. split.
        -- intros Hver. rewrite <- (app_nil_r (init_warnings app)).
           apply Hsteps; try done.
           rewrite Hqs. eapply bind_step; [reflexivity | | reflexivity].
           rewrite bool_decide_eq_true_2 by done.
           rewrite Hver. by apply bind_Raise, bind_Raise.
        -- intros version Hver Hmeth. rewrite <- (app_nil_r (init_warnings app)).
           apply Hsteps; try done.
           rewrite Hqs. eapply bind_step; [reflexivity | | reflexivity].
           rewrite bool_decide_eq_true_2 by done.
           rewrite Hver, Hmeth. apply bind_Raise.
           eapply bind_step; [reflexivity | | reflexivity]. by apply bind_Raise.
Qed.

Lemma encode_latin1_decode_latin1 bs : encode_latin1 (decode_latin1 bs) = Ok bs.
Proof.
  unfold encode_latin1, decode_latin1. induction bs as [| a bs IH]; [done |].
  rewrite fmap_cons. cbn [comprehension]. rewrite IH.
  unfold encode_latin1_cp. pose proof (N_ascii_bounded a) as Ha.
  apply N.ltb_lt in Ha. rewrite Ha. simpl. by rewrite ascii_N_embedding.
Qed.

(** X14: the headers that [create] decodes from the scope, encoded again
    the way [stream_callback] encodes the headers of a response, are the
    header bytes of the scope: name by name and value by value, in order,
    duplicates included, and the encoding never fails. *)
Theorem request_headers_round_trip (raw : list (bytes * bytes)) :
  comprehension encode_header (decode_headers raw) = Ok raw.
Proof.
  unfold decode_headers. induction raw as [| [k v] raw IH]; [done |].
  rewrite fmap_cons. cbn [comprehension]. rewrite IH.
  unfold encode_header. simpl. by rewrite !encode_latin1_decode_latin1.
Qed.

Lemma comprehension_first_error {A B : Type} (f : A -> outcome B) pre x post e :
  Forall (fun a => exists y, f a = Ok y) pre ->
  f x = Raise e ->
  comprehension f (pre ++ x :: post) = Raise e.
Proof.
  intros Hpre Hx. induction Hpre as [| a pre [y Hy] _ IH]; simpl.
  - by rewrite Hx.
  - by rewrite Hy, IH.
Qed.

Lemma create_raises_encoding app scope c ty path e :
  sc_type scope = Some ty ->
  ty <> U "lifespan" ->
  sc_path scope = Some path ->
  obind (quote path)
    (fun quoted => encode_latin1 (dict_get (sc_root_path scope) (U "") ++ quoted))
    = Raise e ->
  create app scope c = (Raise e, c, init_warnings app).
Proof.
  intros Hty Hl Hpath Herr. unfold create.
  eapply bind_step; [apply Lifespan_init_spec | | by rewrite app_nil_r].
  rewrite Hty. eapply bind_step; [reflexivity | | reflexivity].
  rewrite bool_decide_eq_false_2 by done.
  rewrite Hpath. eapply bind_step; [reflexivity | | reflexivity].
  destruct (quote path) as [quoted | |]; simpl in Herr; try done.
  - eapply bind_step; [reflexivity | | reflexivity].
    rewrite Herr. by apply bind_Raise.
  - injection Herr as ->. by apply bind_Raise.
Qed.

(** X15: text that cannot be encoded makes [create] raise
    [UnicodeEncodeError] for the first offending code point, with no
    request assigned: a [root_path] with a code point above 255 (codec
    [latin-1]), a [path] with a surrogate (codec [utf-8]). *)
Theorem create_unencodable_text (app : Sanic) (scope : ASGIScope) (c : conn)
    (ty : str) (path : str) (pre : str) (cp : N) (post : str) :
  sc_type scope = Some ty ->
  ty <> U "lifespan" ->
  sc_path scope = Some path ->
  (forall quoted,
     quote path = Ok quoted ->
     dict_get (sc_root_path scope) (U "") = pre ++ cp :: post ->
     Forall (fun x => x < 256) pre ->
     256 <= cp ->
     create app scope c =
       (Raise (UnicodeEncodeError "latin-1" cp), c, init_warnings app)) /\
  (path = pre ++ cp :: post ->
   Forall (fun x => x < 0xD800) pre ->
   0xD800 <= cp <= 0xDFFF ->
   create app scope c =
     (Raise (UnicodeEncodeError "utf-8" cp), c, init_warnings app)).
Proof.
  intros Hty Hl Hpath. split.
  - intros quoted Hquote Hroot Hpre Hcp.
    apply (create_raises_encoding app scope c ty path); try done.
    rewrite Hquote, Hroot. simpl. rewrite <- app_assoc. simpl.
    apply comprehension_first_error.
    + eapply Forall_impl; [exact Hpre |]. intros x Hx. simpl in Hx.
      unfold encode_latin1_cp. apply N.ltb_lt in Hx. rewrite Hx. by eexists.
    + unfold encode_latin1_cp. destruct (cp <? 256) eqn:Hlt; [| done].
      apply N.ltb_lt in Hlt. lia.
  - intros -> Hpre Hcp.
    apply (create_raises_encoding app scope c ty (pre ++ cp :: post)); try done.
    unfold quote, encode_utf8.
    rewrite (comprehension_first_error utf8_cp pre cp post
               (UnicodeEncodeError "utf-8" cp)); [done | |].
    + eapply Forall_impl; [exact Hpre |]. intros x Hx. simpl in Hx.
      unfold utf8_cp.
      destruct (x <? 128); [by eexists |].
      destruct (x <? 2048); [by eexists |].
      assert (Hlt : (x <? 65536) = true) by (apply N.ltb_lt; lia). rewrite Hlt.
      assert (Hs : (55296 <=? x) = false) by (apply N.leb_gt; lia). rewrite Hs.
      by eexists.
    + unfold utf8_cp.
      assert (H1 : (cp <? 128) = false) by (apply N.ltb_ge; lia).
      assert (H2 : (cp <? 2048) = false) by (apply N.ltb_ge; lia).
      assert (H3 : (cp <? 65536) = true) by (apply N.ltb_lt; lia).
      assert (H4 : (55296 <=? cp) = true) by (apply N.leb_le; lia).
      assert (H5 : (cp <=? 57343) = true) by (apply N.leb_le; lia).
      by rewrite H1, H2, H3, H4, H5.
Qed.

Lemma hex_digit_safe d : d < 16 -> quote_safe (hex_digit d) = true.
Proof.
  intros Hd. unfold hex_digit, quote_safe, always_safe.
  destruct (d <? 10) eqn:Hlt.
  - apply N.ltb_lt in Hlt.
    assert (H1 : (48 <=? 48 + d) = true) by (apply N.leb_le; lia).
    assert (H2 : (48 + d <=? 57) = true) by (apply N.leb_le; lia).
    rewrite H1, H2. simpl. by rewrite !orb_true_r.
  - apply N.ltb_ge in Hlt.
    assert (H1 : (65 <=? 55 + d) = true) by (apply N.leb_le; lia).
    assert (H2 : (55 + d <=? 90) = true) by (apply N.leb_le; lia).
    by rewrite H1, H2.
Qed.

Lemma quote_byte_quoted a :
  Forall (fun x => is_quoted_byte (ascii_of_N x)) (quote_byte a).
Proof.
  pose proof (N_ascii_bounded a) as Ha. unfold quote_byte, is_quoted_byte.
  destruct (quote_safe (N_of_ascii a)) eqn:Hsafe.
  - constructor; [| constructor]. left. by rewrite ascii_N_embedding.
  - assert (Hhi : N_of_ascii a / 16 < 16) by (apply N.Div0.div_lt_upper_bound; lia).
    assert (Hlo : N_of_ascii a mod 16 < 16) by (by apply N.mod_lt).
    constructor; [by right |].
    constructor; [| constructor; [| constructor]]; left.
    + rewrite N_ascii_embedding by (apply hex_digit_small, Hhi).
      by apply hex_digit_safe.
    + rewrite N_ascii_embedding by (apply hex_digit_small, Hlo).
      by apply hex_digit_safe.
Qed.

(** X16: the path part of the URL that [create] assembles consists of
    letters, digits, [_.-~/] and [%]: whatever the path of the scope,
    the part holds no [?], no [#] and no blank, so that the first [?]
    after the root path is the one [create] puts before the query
    string. *)
Theorem url_path_is_quoted (path : str) (path_bytes : bytes) :
  percent_encode path = Ok path_bytes ->
  Forall is_quoted_byte path_bytes /\
  ~ In "?"%char path_bytes /\ ~ In "#"%char path_bytes /\ ~ In " "%char path_bytes.
Proof.
  intros Henc.
  assert (Hall : Forall is_quoted_byte path_bytes).
  { revert Henc. unfold percent_encode, quote.
    destruct (encode_utf8 path) as [bs | |] eqn:Hutf; simpl; try done.
    intros Hlat. pose proof (percent_encode_of_utf8 path bs Hutf) as Hpe.
    unfold percent_encode, quote in Hpe. rewrite Hutf in Hpe. simpl in Hpe.
    rewrite Hpe in Hlat. injection Hlat as <-.
    apply Forall_fmap, Forall_concat, Forall_fmap, Forall_forall.
    intros a _. apply quote_byte_quoted. }
  split; [done |]. rewrite Forall_forall in Hall.
  repeat split; intros Hin; apply list_elem_of_In, Hall in Hin;
    by destruct Hin as [Hin | Hin].
Qed.

(** ** Body ingestion: what the loops do not look at, and when they wait *)

Lemma with_inbound_id c : with_inbound c (inbound c) = c.
Proof. by destruct c. Qed.

Lemma read_body_loop_retyped (f : ASGIMessage -> option str) q acc c k :
  let retyped := fmap (fun m => with_type m (f m)) in
  exists o q',
    read_body_loop q acc (with_inbound c k) = (o, with_inbound c q', []) /\
    read_body_loop (retyped q) acc (with_inbound c (retyped k))
      = (o, with_inbound c (retyped q'), []).
Proof.
  intros retyped. revert acc k. induction q as [| m q IH]; intros acc k.
  - by exists Blocked, k.
  - unfold retyped. rewrite fmap_cons.
    cbn [read_body_loop with_type m_body m_more_body].
    destruct (dict_get (m_more_body m) false).
    + destruct (IH (acc ++ dict_get (m_body m) (B "")) q) as (o & q' & H1 & H2).
      exists o, q'. split.
      * eapply bind_step; [reflexivity | exact H1 | reflexivity].
      * eapply bind_step; [reflexivity | exact H2 | reflexivity].
    + exists (Ok (acc ++ dict_get (m_body m) (B ""))), q. split.
      * by eapply bind_step.
      * by eapply bind_step.
Qed.

(** X17: [read_body] never looks at the ["type"] of a message: with other
    types, or none, on the same bodies and flags it returns the same
    buffer after the same number of messages.  An [http.disconnect] event,
    which has neither [body] nor [more_body], is read as the last, empty
    chunk. *)
Theorem read_body_ignores_type (c : conn) (f : ASGIMessage -> option str) :
  let retyped := fmap (fun m => with_type m (f m)) in
  exists o q',
    read_body c = (o, with_inbound c q', []) /\
    read_body (with_inbound c (retyped (inbound c)))
      = (o, with_inbound c (retyped q'), []).
Proof.
  intros retyped.
  destruct (read_body_loop_retyped f (inbound c) (B "") c (inbound c))
    as (o & q' & H1 & H2).
  rewrite with_inbound_id in H1.
  exists o, q'. split.
  - unfold read_body. eapply bind_step; [reflexivity | exact H1 | reflexivity].
  - unfold read_body. eapply bind_step; [reflexivity | exact H2 | reflexivity].
Qed.

Lemma read_body_loop_all_more q acc c :
  Forall (fun m => more_of m = true) q ->
  read_body_loop q acc c = (Blocked, with_inbound c (if q is [] then inbound c else []), []).
Proof.
  intros Hq. revert acc c. induction Hq as [| m q Hm Hq IH]; intros acc c.
  - simpl. by rewrite with_inbound_id.
  - simpl. eapply bind_step; [reflexivity | | reflexivity].
    unfold more_of in Hm. rewrite Hm, IH. by destruct q.
Qed.

(** X18: as long as no event reports the end of the body, [read_body]
    does not return: on a queue of events that all have [more_body] set
    (or on an empty queue) it takes every event and then waits in
    [receive]; [__call__] waits with it, so the body is not assigned and
    the handler is not invoked. *)
Theorem read_body_waits_for_the_final_event (self : ASGIApp) (c : conn) :
  do_stream self = false ->
  Forall (fun m => more_of m = true) (inbound c) ->
  read_body c = (Blocked, with_inbound c [], []) /\
  __call__ self c = (Blocked, with_inbound c [], []).
Proof.
  intros Hds Hq.
  assert (Hread : read_body c = (Blocked, with_inbound c [], [])).
  { unfold read_body. eapply bind_step; [reflexivity | | reflexivity].
    rewrite (read_body_loop_all_more _ _ _ Hq).
    destruct (inbound c) eqn:Hin; [| done]. by rewrite <- Hin. }
  split; [done |].
  unfold __call__. rewrite Hds. simpl negb. cbv iota.
  apply bind_Blocked. by apply bind_Blocked.
Qed.

Lemma read_body_loop_consumes q acc c :
  exists o consumed rest,
    q = consumed ++ rest /\
    (o = Blocked \/ exists body, o = Ok body) /\
    read_body_loop q acc c =
      (o, with_inbound c (if consumed is [] then inbound c else rest), []).
Proof.
  revert acc c. induction q as [| m q IH]; intros acc c.
  - exists Blocked, [], []. split; [done |]. split; [by left |].
    simpl. by rewrite with_inbound_id.
  - simpl. destruct (dict_get (m_more_body m) false) eqn:Hmore.
    + destruct (IH (acc ++ dict_get (m_body m) (B "")) (with_inbound c q))
        as (o & consumed & rest & -> & Ho & Hrun).
      exists o, (m :: consumed), rest. split; [done |]. split; [done |].
      eapply bind_step; [reflexivity | | reflexivity].
      etrans; [apply Hrun |]. by destruct consumed.
    + exists (Ok (acc ++ dict_get (m_body m) (B ""))), [m], q.
      split; [done |]. split; [right; by eexists |].
      by eapply bind_step.
Qed.

(** X19: [read_body] does nothing but take messages off the front of the
    queue: it sends nothing, never raises, and leaves the request, the
    protocol handle and the messages behind the ones it took as they
    were. *)
Theorem read_body_only_consumes (c : conn) :
  exists o consumed rest,
    inbound c = consumed ++ rest /\
    (o = Blocked \/ exists body, o = Ok body) /\
    read_body c = (o, with_inbound c rest, []).
Proof.
  destruct (read_body_loop_consumes (inbound c) (B "") c)
    as (o & consumed & rest & Hq & Ho & Hrun).
  exists o, consumed, rest. split; [done |]. split; [done |].
  unfold read_body. eapply bind_step; [reflexivity | | reflexivity].
  rewrite Hrun. destruct consumed; [| done].
  simpl in Hq. by rewrite Hq.
Qed.


(** ** The handler's side of [__call__] *)

Section Frame.
Context {X : Type} (part : conn -> X).
Hypothesis part_protocol : forall c p, part (with_protocol c p) = part c.






End Frame.


Lemma quiet_sends_nothing t : Forall is_quiet t -> sent t = [].
Proof.
  induction 1 as [| a t Ha _ IH]; [done |].
  destruct a; simpl in *; try done.
Qed.

(** X22: on a websocket instance [__call__] passes no callback to the
    handler, and so sends nothing, whatever the queue, the request and
    the choice of ingestion. *)
Theorem websocket_call_sends_nothing (self : ASGIApp) (c : conn) :
  ws self = true ->
  sent (__call__ self c).2 = [] /\
  forall r with_callback,
    In (AHandleRequest r with_callback) (__call__ self c).2 -> with_callback = false.
Proof.
  intros Hws.
  assert (Hw : writes (fun a => is_quiet a /\
                         forall r b, a = AHandleRequest r b -> b = false)
                 (__call__ self)).
  { unfold __call__. rewrite Hws.
    repeat first
      [ apply writes_read_body | apply writes_get_request
      | by apply writes_silent | by apply writes_ret
      | apply writes_emit; split; [done | by intros ? ? [= _ <-] || by intros ? ? [=]]
      | apply writes_bind; [| intros ?]
      | match goal with |- writes _ (if ?x then _ else _) => destruct x end ]. }
  specialize (Hw c). split.
  - apply quiet_sends_nothing. eapply Forall_impl; [exact Hw |]. by intros a [? _].
  - intros r b Hin. rewrite Forall_forall in Hw.
    apply list_elem_of_In, Hw in Hin as [_ Hb]. by apply (Hb r b).
Qed.


(** ** The response callback: edges and failures *)



Lemma encode_latin1_error s e :
  encode_latin1 s = Raise e ->
  exists cp, In cp s /\ 256 <= cp /\ e = UnicodeEncodeError "latin-1" cp.
Proof.
  unfold encode_latin1. induction s as [| x s IH]; simpl; [done |].
  unfold encode_latin1_cp at 1. destruct (x <? 256) eqn:Hx; simpl.
  - destruct (comprehension encode_latin1_cp s) as [ys | e' |]; simpl; try done.
    intros [= ->]. destruct (IH eq_refl) as (cp & Hin & Hcp & ->).
    exists cp. split; [by right | done].
  - intros [= <-]. apply N.ltb_ge in Hx. exists x. split; [by left | done].
Qed.

Lemma encode_headers_error hs e :
  comprehension encode_header hs = Raise e ->
  exists cp, 256 <= cp /\ e = UnicodeEncodeError "latin-1" cp.
Proof.
  induction hs as [| [name value] hs IH]; simpl; [done |].
  unfold encode_header at 1. simpl.
  destruct (encode_latin1 name) as [nb | e' |] eqn:Hn; simpl.
  - destruct (encode_latin1 value) as [vb | e' |] eqn:Hv; simpl.
    + by destruct (comprehension encode_header hs) as [ys | e' |].
    + intros [= ->]. destruct (encode_latin1_error _ _ Hv) as (cp & _ & Hcp & ->).
      by exists cp.
    + done.
  - intros [= ->]. destruct (encode_latin1_error _ _ Hn) as (cp & _ & Hcp & ->).
    by exists cp.
  - done.
Qed.

(** X25: a header name or value with a code point above 255 cannot be
    encoded.  The callback then raises [UnicodeEncodeError], which its
    [except AttributeError] does not catch: nothing is logged, no response
    is substituted and no event is sent. *)
Theorem unencodable_header_sends_nothing (self : ASGIApp) (resp : response)
    (base : BaseHTTPResponse) (c : conn) (e : exn) :
  response_base resp "headers" = Ok base ->
  comprehension encode_header (resp_headers base) = Raise e ->
  stream_callback self resp c = (Raise e, c, []) /\
  exists cp, 256 <= cp /\ e = UnicodeEncodeError "latin-1" cp.
Proof.
  intros Hbase Herr.
  destruct (encode_headers_error _ _ Herr) as (cp & Hcp & ->).
  split; [| by exists cp].
  unfold stream_callback. apply bind_Raise.
  unfold try_except_AttributeError.
  erewrite (bind_step _ _ c base c [] (Raise (UnicodeEncodeError "latin-1" cp)) c []);
    [done | by rewrite Hbase | | done].
  rewrite Herr. by apply bind_Raise.
Qed.

(** X26: when the error handler itself answers with an object without
    [headers], the callback logs the first anomaly and raises
    [AttributeError]; when the instance has no request to report, it
    raises before logging.  In both cases nothing is sent. *)
Theorem invalid_substitute_propagates (self : ASGIApp) (name : string) (c : conn) :
  (request c = None ->
   stream_callback self (NotAResponse name) c =
     (Raise (AttributeError "request"), c, [])) /\
  (forall r name',
     request c = Some r ->
     error_handler_response (sanic_app self) r (ServerError "Invalid response type")
       = NotAResponse name' ->
     stream_callback self (NotAResponse name) c =
       (Raise (AttributeError "headers"), c, [ALogError (r_url r) name])).
Proof.
  split.
  - intros Hreq. unfold stream_callback. apply bind_Raise.
    eapply try_except_caught; [reflexivity | | reflexivity].
    apply bind_Raise. unfold get_request. by rewrite Hreq.
  - intros r name' Hreq Hsub. unfold stream_callback. apply bind_Raise.
    eapply try_except_caught; [reflexivity | | reflexivity].
    eapply bind_step; [by apply get_request_spec | | reflexivity].
    eapply bind_step; [reflexivity | | reflexivity].
    rewrite Hsub. by apply bind_Raise.
Qed.



(** ** The order of the events of a response *)

Lemma sent_app t1 t2 : sent (t1 ++ t2) = sent t1 ++ sent t2.
Proof. unfold sent. by rewrite omap_app. Qed.

Lemma chunk_actions_sent t : Forall is_chunk_action t -> Forall is_chunk_event (sent t).
Proof.
  induction 1 as [| a t Ha _ IH]; [constructor |].
  destruct a as [ev | | | | | | | |]; simpl in Ha; try done.
  destruct ev as [| | |body more]; try done. destruct more; [| done].
  simpl. by constructor.
Qed.

Lemma writes_chunks_run_stream ops : writes is_chunk_action (run_stream ops).
Proof.
  induction ops as [| op ops IH]; simpl; [by apply writes_ret |].
  apply writes_bind; [| by intros].
  destruct op; simpl;
    unfold MockProtocol.push_data, MockProtocol.is_complete, MockProtocol.drain;
    repeat first
      [ apply writes_this | by apply writes_ret | by apply writes_lift
      | by apply writes_emit
      | apply writes_bind; [| intros ?]
      | match goal with |- writes _ (if ?x then _ else _) => destruct x end ].
Qed.

Lemma only_computes_lift {A : Type} (o : outcome A) : only_computes (lift o).
Proof. intros c. by exists o. Qed.

Lemma only_computes_ret {A : Type} (a : A) : only_computes (ret a).
Proof. intros c. by exists (Ok a). Qed.

Lemma only_computes_bind {A B : Type} (m : M A) (f : A -> M B) :
  only_computes m -> (forall a, only_computes (f a)) -> only_computes (bind m f).
Proof.
  intros Hm Hf c. destruct (Hm c) as ([a | e |] & Hrun).
  - destruct (Hf a c) as (o & Hrun'). exists o. by eapply bind_step.
  - exists (Raise e). by apply bind_Raise.
  - exists Blocked. by apply bind_Blocked.
Qed.

Lemma writes_quiet_encoding self resp :
  writes is_quiet
    (try_except_AttributeError
       (base <- lift (response_base resp "headers") ;;
        headers <- lift (comprehension encode_header (resp_headers base)) ;;
        ret (resp, headers))
       (request <- get_request ;;
        emit (ALogError (r_url request) (type_name resp)) ;;;
        let exception := ServerError "Invalid response type" in
        let response := error_handler_response (sanic_app self) request exception in
        base <- lift (response_base response "headers") ;;
        headers <- lift (comprehension encode_header
                           (List.filter not_set_cookie (resp_headers base))) ;;
        ret (response, headers))).
Proof.
  repeat first
    [ apply writes_get_request | by apply writes_ret | by apply writes_lift
    | by apply writes_emit
    | apply writes_try
    | apply writes_bind; [| intros ?] ].
Qed.

Lemma body_events_of_response resp c :
  exists chunks final,
    sent ((match resp with
           | StreamingHTTPResponse _ stream =>
               MockTransport.get_protocol ;;;
               run_stream stream ;;;
               MockProtocol.complete
           | _ =>
               body <- lift (response_body resp) ;;
               MockTransport.send (HttpResponseBody body false)
           end) c).2 = chunks ++ final /\
    Forall is_chunk_event chunks /\
    (final = [] \/ exists body, final = [HttpResponseBody body false]).
Proof.
  destruct resp as [base body | base stream | name].
  - exists [], [HttpResponseBody body false]. repeat split; [constructor |].
    right. by eexists.
  - rewrite bind_unfold.
    assert (Hgp : exists p c1, MockTransport.get_protocol c = (Ok p, c1, [])).
    { unfold MockTransport.get_protocol. destruct (_protocol c); by eauto. }
    destruct Hgp as (p & c1 & ->). cbn [fst snd app]. rewrite bind_unfold.
    pose proof (writes_chunks_run_stream stream c1) as Hw.
    apply chunk_actions_sent in Hw.
    destruct (run_stream stream c1) as [[[[] | e |] c2] t2]; cbn [fst snd] in *.
    + exists (sent t2), [HttpResponseBody (B "") false].
      rewrite sent_app. repeat split; [done |]. right. by eexists.
    + exists (sent t2), []. rewrite app_nil_r. repeat split; [done | by left].
    + exists (sent t2), []. rewrite app_nil_r. repeat split; [done | by left].
  - exists [], []. repeat split; [constructor | by left].
Qed.

(** X28: whatever the handler hands to the callback and however the run
    ends (it returns, raises, or stays suspended in [drain]), the events
    it has sent are none, or one [http.response.start] followed by body
    events with [more_body] set and then at most one body event with
    [more_body] clear: the start event is never missing, never repeated,
    and nothing follows the final body event within the callback. *)
Theorem response_events_are_ordered (self : ASGIApp) (resp : response) (c : conn) :
  response_events (sent (stream_callback self resp c).2).
Proof.
  unfold stream_callback. rewrite bind_unfold.
  pose proof (writes_quiet_encoding self resp c) as Hquiet.
  apply quiet_sends_nothing in Hquiet.
  match goal with |- context [match (?m c).1.1 with _ => _ end] =>
    destruct (m c) as [[[[resp' hs] | e |] c1] t1] end;
    cbn [fst snd] in *; [| by left | by left].
  rewrite sent_app, Hquiet, app_nil_l. rewrite bind_unfold.
  destruct (response_base resp' "headers") as [base | e |] eqn:Hbase;
    cbn [lift fst snd app]; [| by left | by left].
  rewrite bind_unfold.
  match goal with |- context [match (?m c1).1.1 with _ => _ end] =>
    assert (Hpure : only_computes m) end.
  { destruct (_ && _); [| apply only_computes_ret].
    apply only_computes_bind; [apply only_computes_lift |].
    intros body. apply only_computes_ret. }
  destruct (Hpure c1) as (o & ->). cbn [fst snd app].
  destruct o as [headers | e |]; [| by left | by left].
  rewrite bind_unfold.
  match goal with |- context [match (?m c1).1.1 with _ => _ end] =>
    assert (Hpure' : only_computes m) end.
  { destruct (bool_decide _); [| apply only_computes_ret].
    apply only_computes_bind; [apply only_computes_lift |].
    intros cookies. apply only_computes_ret. }
  destruct (Hpure' c1) as (o & ->). cbn [fst snd app].
  destruct o as [headers' | e |]; [| by left | by left].
  rewrite bind_unfold. cbn [MockTransport.send emit fst snd app].
  destruct (body_events_of_response resp' c1) as (chunks & final & Hsent & Hchunks & Hfinal).
  right. exists (resp_status base), headers', chunks, final.
  split; [| done]. rewrite <- Hsent. reflexivity.
Qed.

(** ** The further statements on the sample objects *)

Lemma is_complete_is_never_set_witness :
  let ms := [PauseWriting; Push (B "a"); Complete; ResumeWriting; Push (B "b");
             AwaitDrain; Complete] in
  let c' := (call_methods ms (Samples.conn_with_handle (handle true false))).1.2 in
  MockProtocol.is_complete c' = (Ok false, c', []).
Proof.
  exact (is_complete_is_never_set
           [PauseWriting; Push (B "a"); Complete; ResumeWriting; Push (B "b");
            AwaitDrain; Complete]
           (Samples.conn_with_handle (handle true false))
           {| _not_paused := true; _complete := false |} eq_refl eq_refl).
Defined.

Lemma push_data_does_not_wait_witness :
  let c := Samples.conn_with_handle (handle true false) in
  (MockProtocol.pause_writing ;;; MockProtocol.push_data (B "chunk")) c =
    (Ok tt, with_protocol c (handle false false),
     [ASend (HttpResponseBody (B "chunk") true)]) /\
  (MockProtocol.pause_writing ;;; MockProtocol.drain) c =
    (Blocked, with_protocol c (handle false false), []) /\
  (MockProtocol.pause_writing ;;; MockProtocol.resume_writing ;;; MockProtocol.drain) c =
    (Ok tt, with_protocol c (handle true false), []).
Proof.
  exact (push_data_does_not_wait (Samples.conn_with_handle (handle true false))
           {| _not_paused := true; _complete := false |} (B "chunk") eq_refl eq_refl).
Defined.

Lemma complete_resumes_writing_witness :
  let c := Samples.conn_with_handle (handle false false) in
  MockProtocol.drain c = (Blocked, c, []) /\
  (MockProtocol.complete ;;; MockProtocol.drain) c =
    (Ok tt, with_protocol c (handle true false),
     [ASend (HttpResponseBody (B "") false)]).
Proof.
  exact (complete_resumes_writing (Samples.conn_with_handle (handle false false))
           {| _not_paused := false; _complete := false |} eq_refl eq_refl).
Defined.

Lemma get_protocol_keeps_the_handle_witness :
  let c := Examples.conn_with [] None in
  (MockTransport.get_protocol ;;; MockProtocol.pause_writing ;;;
   MockTransport.get_protocol) c =
    (Ok {| _not_paused := false; _complete := false |},
     with_protocol c (handle false false), []) /\
  forall c1 p1,
    MockTransport.get_protocol c = (Ok p1, c1, []) ->
    MockTransport.get_protocol c1 = (Ok p1, c1, []).
Proof.
  exact (get_protocol_keeps_the_handle (Examples.conn_with [] None) eq_refl).
Defined.

Lemma websocket_connection_only_for_websocket_witness :
  let opened :=
    (create Examples.app Samples.websocket_scope (Examples.conn_with [] None)).1.2 in
  let plain :=
    (create Examples.app Samples.get_scope (Examples.conn_with [] None)).1.2 in
  MockTransport.get_websocket_connection opened = (Ok tt, opened, []) /\
  MockTransport.get_websocket_connection plain =
    (Raise (InvalidUsage "Improper websocket connection."), plain, []).
Proof.
  split.
  - refine (proj1 (websocket_connection_only_for_websocket
                     Examples.app Samples.websocket_scope (Examples.conn_with [] None)
                     _ _ _ eq_refl _) eq_refl).
    vm_compute. reflexivity.
  - refine (proj2 (websocket_connection_only_for_websocket
                     Examples.app Samples.get_scope (Examples.conn_with [] None)
                     _ _ _ eq_refl _) eq_refl).
    vm_compute. reflexivity.
Defined.

Lemma lifespan_full_cycle_witness :
  let c :=
    Examples.conn_with
      [Samples.event_of_type "lifespan.startup"; Samples.event_of_type "lifespan.shutdown"]
      None in
  Lifespan.__call__ Samples.plain_app c =
    (Ok tt, with_inbound c [],
     [ACall "a"; ACall "b"; ASend LifespanStartupComplete;
      ACall "c"; ACall "d"; ASend LifespanShutdownComplete]).
Proof.
  apply (lifespan_full_cycle Samples.plain_app
           (Examples.conn_with
              [Samples.event_of_type "lifespan.startup";
               Samples.event_of_type "lifespan.shutdown"] None)
           (Samples.event_of_type "lifespan.startup")
           (Samples.event_of_type "lifespan.shutdown") [] eq_refl eq_refl eq_refl);
    repeat constructor.
Defined.

Lemma lifespan_skips_unexpected_messages_witness :
  let c :=
    Examples.conn_with
      [Samples.event_of_type "lifespan.shutdown"; Samples.event_of_type "lifespan.startup"]
      None in
  Lifespan.__call__ Samples.plain_app c = (Ok tt, with_inbound c [], []).
Proof.
  apply (proj1 (lifespan_skips_unexpected_messages Samples.plain_app
                  (Examples.conn_with
                     [Samples.event_of_type "lifespan.shutdown";
                      Samples.event_of_type "lifespan.startup"] None)
                  (Samples.event_of_type "lifespan.shutdown")
                  (Samples.event_of_type "lifespan.startup") []
                  (U "lifespan.shutdown") eq_refl eq_refl ltac:(discriminate))
           (U "lifespan.startup"));
    [reflexivity | discriminate].
Defined.

Lemma lifespan_shutdown_failure_witness :
  let c :=
    Examples.conn_with
      [Samples.event_of_type "lifespan.startup"; Samples.event_of_type "lifespan.shutdown"]
      None in
  let t := [ACall "a"; ASend LifespanStartupComplete;
            ACall "c"; ACall "x"; AAwait "x"] in
  Lifespan.__call__ Samples.failing_stop_app c =
    (Raise (ListenerError "late"), with_inbound c [], t) /\
  sent t = [LifespanStartupComplete] /\
  called t = ["a"; "c"; "x"]%string.
Proof.
  apply (lifespan_shutdown_failure Samples.failing_stop_app
           (Examples.conn_with
              [Samples.event_of_type "lifespan.startup";
               Samples.event_of_type "lifespan.shutdown"] None)
           (Samples.event_of_type "lifespan.startup")
           (Samples.event_of_type "lifespan.shutdown") []
           [Samples.ok_listener "c"]
           {| l_name := "x"; l_result := ReturnsAwaitable (Some (ListenerError "late")) |}
           [Samples.ok_listener "never"] (ListenerError "late")
           eq_refl eq_refl eq_refl);
    first [reflexivity | repeat constructor].
Defined.

Lemma pre_startup_then_startup_repeats_witness :
  let c := Examples.conn_with [] None in
  Lifespan.pre_startup Samples.plain_app c = (Ok tt, c, [ACall "a"]) /\
  (Lifespan.pre_startup Samples.plain_app ;;; Lifespan.startup Samples.plain_app) c =
    (Ok tt, c, [ACall "a"; ACall "a"; ACall "b"]).
Proof.
  apply (pre_startup_then_startup_repeats Samples.plain_app (Examples.conn_with [] None)).
  repeat constructor.
Defined.

Lemma create_always_warns_first_witness :
  In (AWarn "before_server_start")
    (create Examples.app Examples.unknown_scope (Examples.conn_with [] None)).2.
Proof.
  apply (proj1 (proj2 (create_always_warns_first Examples.app Examples.unknown_scope
                         (Examples.conn_with [] None)))).
  vm_compute. by eexists.
Defined.


Lemma create_lifespan_delegates_witness :
  let c :=
    Examples.conn_with
      [Samples.event_of_type "lifespan.startup"; Samples.event_of_type "lifespan.shutdown"]
      None in
  create Samples.plain_app Samples.lifespan_scope c =
    (Ok {| sanic_app := Samples.plain_app; do_stream := false; ws := false |},
     with_inbound c [],
     [AWarn "before_server_start"; AWarn "after_server_stop";
      ACall "a"; ACall "b"; ASend LifespanStartupComplete;
      ACall "c"; ACall "d"; ASend LifespanShutdownComplete]) /\
  request (create Samples.plain_app Samples.lifespan_scope c).1.2 = None.
Proof.
  exact (create_lifespan_delegates Samples.plain_app Samples.lifespan_scope
           (Examples.conn_with
              [Samples.event_of_type "lifespan.startup";
               Samples.event_of_type "lifespan.shutdown"] None)
           eq_refl).
Defined.

Lemma create_missing_keys_witness :
  create Examples.app Samples.bare_http_scope (Examples.conn_with [] None) =
    (Raise (KeyError "path"), Examples.conn_with [] None, [AWarn "before_server_start"]) /\
  create Examples.app Samples.lifespan_scope (Examples.conn_with [] None) =
    (Blocked, Examples.conn_with [] None, [AWarn "before_server_start"]).
Proof.
  split.
  - apply (proj1 (proj2 (create_missing_keys Examples.app Samples.bare_http_scope
                           (Examples.conn_with [] None))
                    (U "http") eq_refl ltac:(discriminate))).
    reflexivity.
  - reflexivity.
Defined.

Lemma create_unencodable_text_witness :
  create Examples.app Samples.euro_root_scope (Examples.conn_with [] None) =
    (Raise (UnicodeEncodeError "latin-1" 0x20AC), Examples.conn_with [] None,
     [AWarn "before_server_start"]).
Proof.
  apply (proj1 (create_unencodable_text Examples.app Samples.euro_root_scope
                  (Examples.conn_with [] None) (U "http") (U "/") (U "/shop") 0x20AC []
                  eq_refl ltac:(discriminate) eq_refl)
           (U "/")).
  - reflexivity.
  - reflexivity.
  - repeat constructor.
  - vm_compute. discriminate.
Defined.

Lemma url_path_is_quoted_witness :
  Forall is_quoted_byte (B "/a%20b%3Fc") /\
  ~ In "?"%char (B "/a%20b%3Fc") /\ ~ In "#"%char (B "/a%20b%3Fc") /\
  ~ In " "%char (B "/a%20b%3Fc").
Proof.
  exact (url_path_is_quoted (U "/a b?c") (B "/a%20b%3Fc") eq_refl).
Defined.

Lemma read_body_ignores_type_witness :
  let c :=
    Examples.conn_with [Examples.body_event "ab" true; Examples.bare_event]
      (Some Examples.request0) in
  let retyped :=
    fmap (fun m : ASGIMessage => with_type m (Some (U "http.disconnect"))) in
  exists o q',
    read_body c = (o, with_inbound c q', []) /\
    read_body (with_inbound c (retyped (inbound c)))
      = (o, with_inbound c (retyped q'), []).
Proof.
  exact (read_body_ignores_type
           (Examples.conn_with [Examples.body_event "ab" true; Examples.bare_event]
              (Some Examples.request0))
           (fun _ => Some (U "http.disconnect"))).
Defined.

Lemma read_body_waits_for_the_final_event_witness :
  let c :=
    Examples.conn_with [Examples.body_event "ab" true; Examples.body_event "cd" true]
      (Some Examples.request0) in
  read_body c = (Blocked, with_inbound c [], []) /\
  __call__ Samples.plain_self c = (Blocked, with_inbound c [], []).
Proof.
  apply (read_body_waits_for_the_final_event Samples.plain_self
           (Examples.conn_with
              [Examples.body_event "ab" true; Examples.body_event "cd" true]
              (Some Examples.request0))
           eq_refl).
  repeat constructor.
Defined.



Lemma websocket_call_sends_nothing_witness :
  let c := Examples.conn_with [Examples.body_event "ab" false] (Some Examples.request0) in
  sent (__call__ Samples.websocket_self c).2 = [] /\
  forall r with_callback,
    In (AHandleRequest r with_callback) (__call__ Samples.websocket_self c).2 ->
    with_callback = false.
Proof.
  exact (websocket_call_sends_nothing Samples.websocket_self
           (Examples.conn_with [Examples.body_event "ab" false]
              (Some Examples.request0))
           eq_refl).
Defined.



Lemma unencodable_header_sends_nothing_witness :
  let c := Examples.conn_with [] (Some Examples.request0) in
  stream_callback Examples.self (HTTPResponse Samples.euro_base (B "x")) c =
    (Raise (UnicodeEncodeError "latin-1" 0x20AC), c, []) /\
  exists cp, 256 <= cp /\
    UnicodeEncodeError "latin-1" 0x20AC = UnicodeEncodeError "latin-1" cp.
Proof.
  exact (unencodable_header_sends_nothing Examples.self
           (HTTPResponse Samples.euro_base (B "x")) Samples.euro_base
           (Examples.conn_with [] (Some Examples.request0))
           (UnicodeEncodeError "latin-1" 0x20AC) eq_refl eq_refl).
Defined.

Lemma invalid_substitute_propagates_witness :
  let c := Examples.conn_with [] (Some Examples.request0) in
  stream_callback Samples.plain_self (NotAResponse "dict") c =
    (Raise (AttributeError "headers"), c, [ALogError (B "/upload?") "dict"]).
Proof.
  exact (proj2 (invalid_substitute_propagates Samples.plain_self "dict"
                  (Examples.conn_with [] (Some Examples.request0)))
           Examples.request0 "NoneType" eq_refl eq_refl).
Defined.

